(** * DREAM: dispatch simulator for temporal networks with uncertainty

    A shallow embedding of [libheat/montsim.py] (class [Simulator]) and of
    [src/sim2csv.py], with the properties of the simulator's specification
    stated and settled over it.

    Conventions of the embedding.
    - Python floats are kept abstract: the class [Float] lists the float
      operations the simulator uses, and every theorem holds for every
      interpretation of them.  [xfloat] (rationals extended with the
      infinities and NaN) is the interpretation used to run the code on
      concrete inputs.
    - Python exceptions are the [Raise] outcomes; mutation of an object is a
      state that survives a raise.
    - The STN data type, the SREA solver and the sampler are not part of the
      two source files; what the simulator needs from them is gathered in
      the class [Collaborators].
    - The ghost field [run_log] records, in program order, every SREA call
      and every counter increment of the current run. *)

From Stdlib Require Import ZArith QArith Qabs Bool List String Lia.
From stdpp Require Import base option list gmap strings.

Local Open Scope Z_scope.

(** ** Outcomes of a call *)

Inductive exn : Set :=
| ValueError | KeyError | AttributeError | TypeError | NameError.

(** [Ret] is a normal return, [Raise] an uncaught exception, and [Fuel] the
    exhaustion of the iteration budget given to a loop whose termination
    depends on the collaborators. *)
Inductive outcome (A : Type) : Type :=
| Ret (a : A)
| Raise (e : exn)
| Fuel.
Arguments Ret {A} a.
Arguments Raise {A} e.
Arguments Fuel {A}.

(** ** src/sim2csv.py *)

Module sim2csv.

(** Names bound in the module namespace by its top-level statements:
    [import os.path] binds [os], [import pandas] binds [pandas] (there is no
    [as pd]), and [def] binds [save_csv_row]; the interpreter adds the
    dunder names. *)
Definition module_globals : list string :=
  ["__name__"; "__doc__"; "__file__"; "__builtins__";
   "os"; "pandas"; "save_csv_row"]%string.

(** Names of the [builtins] module (functions, constants and the exception
    classes a lookup can fall back on). *)
Definition builtins : list string :=
  ["abs"; "all"; "any"; "ascii"; "bin"; "bool"; "breakpoint"; "bytearray";
   "bytes"; "callable"; "chr"; "classmethod"; "compile"; "complex";
   "delattr"; "dict"; "dir"; "divmod"; "enumerate"; "eval"; "exec";
   "filter"; "float"; "format"; "frozenset"; "getattr"; "globals";
   "hasattr"; "hash"; "help"; "hex"; "id"; "input"; "int"; "isinstance";
   "issubclass"; "iter"; "len"; "list"; "locals"; "map"; "max";
   "memoryview"; "min"; "next"; "object"; "oct"; "open"; "ord"; "pow";
   "print"; "property"; "range"; "repr"; "reversed"; "round"; "set";
   "setattr"; "slice"; "sorted"; "staticmethod"; "str"; "sum"; "super";
   "tuple"; "type"; "vars"; "zip"; "__import__";
   "True"; "False"; "None"; "Ellipsis"; "NotImplemented";
   "Exception"; "BaseException"; "NameError"; "ValueError"; "KeyError";
   "TypeError"; "AttributeError"; "OSError"; "IOError"; "RuntimeError";
   "StopIteration"; "ImportError"; "IndexError"; "ZeroDivisionError"]%string.

(** The function has two parameters and assigns [df]: these are its local
    names.  Any other name is looked up in the module namespace and then in
    the builtins. *)
Definition save_csv_row_locals : list string := ["row"; "to_file"; "df"]%string.

Definition mem_name (x : string) (l : list string) : bool :=
  existsb (String.eqb x) l.

Definition resolves_global (x : string) : bool :=
  mem_name x module_globals || mem_name x builtins.

(** File-system effects of a call, in order. *)
Inductive io_event : Set :=
| IsFile (path : string)
| ToCsv (path : string) (header : bool) (mode : string).

(** What the collaborators of [save_csv_row] would answer, were they
    reached: whether the path is an existing file. *)
Definition save_csv_row {Row : Type} (isfile : string -> bool)
    (row : Row) (to_file : string) : outcome unit * list io_event :=
  (* df = pd.DataFrame.from_dict(row) *)
  if negb (mem_name "pd" save_csv_row_locals) && negb (resolves_global "pd")
  then (Raise NameError, [])
  else
    (* if os.path.isfile(to_file): ... else: ... *)
    if isfile to_file
    then (Ret tt, [IsFile to_file; ToCsv to_file false "a"])
    else (Ret tt, [IsFile to_file; ToCsv to_file true "w"]).

End sim2csv.

(** ** Floats *)

(** The float operations of [montsim.py]: the literals [0.0], [1.0] and
    [float("inf")], [+], binary and unary [-], [abs], [**] with an integer
    exponent, and [>]. *)
Class Float (F : Type) : Type := {
  f0 : F;
  f1 : F;
  finf : F;
  fadd : F -> F -> F;
  fsub : F -> F -> F;
  fneg : F -> F;
  fabs : F -> F;
  fpow : F -> nat -> F;
  fgt : F -> F -> bool
}.

(** Rationals with the two infinities and NaN. *)
Inductive xfloat : Set :=
| Fin (q : Q)
| PInf
| NInf
| NaN.

Definition xadd (a b : xfloat) : xfloat :=
  match a, b with
  | NaN, _ | _, NaN => NaN
  | Fin p, Fin q => Fin (Qred (p + q))
  | PInf, NInf | NInf, PInf => NaN
  | PInf, _ | _, PInf => PInf
  | NInf, _ | _, NInf => NInf
  end.

Definition xneg (a : xfloat) : xfloat :=
  match a with
  | Fin p => Fin (Qred (- p))
  | PInf => NInf
  | NInf => PInf
  | NaN => NaN
  end.

Definition xsub (a b : xfloat) : xfloat := xadd a (xneg b).

Definition xsign (a : xfloat) : comparison :=
  match a with
  | Fin p => (p ?= 0)%Q
  | PInf => Gt
  | NInf => Lt
  | NaN => Eq
  end.

Definition xmul (a b : xfloat) : xfloat :=
  match a, b with
  | NaN, _ | _, NaN => NaN
  | Fin p, Fin q => Fin (Qred (p * q))
  | _, _ =>
      match xsign a, xsign b with
      | Eq, _ | _, Eq => NaN
      | Gt, Gt | Lt, Lt => PInf
      | _, _ => NInf
      end
  end.

Definition xabs (a : xfloat) : xfloat :=
  match a with
  | Fin p => Fin (Qred (Qabs p))
  | PInf | NInf => PInf
  | NaN => NaN
  end.

Fixpoint xpow (a : xfloat) (k : nat) : xfloat :=
  match k with
  | O => Fin 1
  | S k' => xmul a (xpow a k')
  end.

Definition xgt (a b : xfloat) : bool :=
  match a, b with
  | NaN, _ | _, NaN => false
  | Fin p, Fin q => negb (Qle_bool p q)
  | PInf, PInf => false
  | PInf, _ => true
  | _, NInf => match a with NInf => false | _ => true end
  | _, _ => false
  end.

#[export] Instance xfloat_Float : Float xfloat := {|
  f0 := Fin 0;
  f1 := Fin 1;
  finf := PInf;
  fadd := xadd;
  fsub := xsub;
  fneg := xneg;
  fabs := xabs;
  fpow := xpow;
  fgt := xgt
|}.

(** ** libheat/montsim.py *)

Module montsim.

Definition Z_NODE_ID : Z := 0.

(** Sequencing of calls that may raise. *)
Definition and_then {A B : Type} (r : outcome A) (k : A -> outcome B) : outcome B :=
  match r with
  | Ret a => k a
  | Raise e => Raise e
  | Fuel => Fuel
  end.

Notation "'let!' x ':=' r 'in' k" := (and_then r (fun x => k))
  (at level 10, x pattern, r at level 100, k at level 200).

(** Events of the ghost log: a call of [srea.srea], [num_reschedules += 1]
    and [num_sent_schedules += 1]. *)
Inductive event : Set :=
| EvSrea
| EvResched
| EvSent.

Section Data.
Context {F : Type} `{!Float F}.

(** *** The STN data type *)

(** Modelled from the spec: the STN module ([libheat]'s STN class) is not
    among the sources; the specification describes it as a mapping from
    vertex id to vertex, a mapping from ordered pair [(i, j)] to edge, the
    contingent edges and the list of received timepoints.  A vertex carries
    its executed flag. *)
Record Vertex : Type := { is_executed : bool }.

(** Modelled from the spec: [vertex.execute()] of the missing STN module
    sets the executed flag. *)
Definition execute (v : Vertex) : Vertex := {| is_executed := true |}.

(** Modelled from the spec: the edge objects of the missing STN module.
    What the simulator reads from one: [.i], its target,
    [.get_weight_min()] and, on a contingent edge, [.sampled_time()]. *)
Record Edge : Type := {
  e_i : Z;
  e_j : Z;
  get_weight_min : F;
  sampled_time : F
}.

(** Modelled from the spec: the STN object of the missing STN module.
    [verts] and [contingent_edges] are dictionaries that the simulator
    iterates over, so their insertion order is kept; [edges] gives the
    weight (upper bound) of each ordered pair. *)
Record STN : Type := {
  verts : list (Z * Vertex);
  edges : gmap (Z * Z) F;
  contingent_edges : list ((Z * Z) * Edge);
  received_timepoints : list Z
}.

(** Modelled from the spec: [stn.copy()] of the missing STN module; a deep
    copy is the same value. *)
Definition copy (s : STN) : STN := s.

Fixpoint lookup_vert (l : list (Z * Vertex)) (v : Z) : option Vertex :=
  match l with
  | [] => None
  | (k, x) :: l' => if Z.eqb k v then Some x else lookup_vert l' v
  end.

(** Modelled from the spec: [stn.get_vertex(v)] of the missing STN module;
    no vertex is found for an id that is not a key of [verts]. *)
Definition get_vertex (s : STN) (v : Z) : option Vertex := lookup_vert (verts s) v.

(** Modelled from the spec: [stn.get_all_verts()] of the missing STN
    module, the values of [verts]. *)
Definition get_all_verts (s : STN) : list Vertex := map snd (verts s).

(** Modelled from the spec: [stn.get_vertex(v).execute()] of the missing
    STN module, seen from the STN: the vertex object stored under [v] gets
    its flag set. *)
Definition execute_vertex (s : STN) (v : Z) : STN :=
  {| verts := map (fun p => if Z.eqb (fst p) v then (fst p, execute (snd p)) else p) (verts s);
     edges := edges s;
     contingent_edges := contingent_edges s;
     received_timepoints := received_timepoints s |}.

(** Modelled from the spec: [stn.update_edge(i, j, w, create=.., force=..)]
    of the missing STN module, "create or overwrite".  An absent edge is
    made when [create] is set; a present one is overwritten when [force] is
    set, and otherwise only tightened. *)
Definition update_edge (s : STN) (i j : Z) (w : F) (create force : bool) : STN :=
  let new_edges :=
    match edges s !! (i, j) with
    | None => if create then <[(i, j) := w]> (edges s) else edges s
    | Some old =>
        if force || fgt old w then <[(i, j) := w]> (edges s) else edges s
    end in
  {| verts := verts s;
     edges := new_edges;
     contingent_edges := contingent_edges s;
     received_timepoints := received_timepoints s |}.

(** The remaining operations of the STN, the SREA solver and the sampler
    are taken as they come: any functions of these types.  [srea] answers
    [None] for "infeasible" and otherwise an alpha and a guide STN of its
    own; [floyd_warshall] answers whether the network is consistent and the
    minimised network; [resample] draws the duration of one contingent edge
    and advances the random state; [RandomState_seeded] is
    [np.random.RandomState(seed)] for an integer seed. *)
Class Collaborators : Type := {
  get_incoming : STN -> Z -> list Edge;
  get_incoming_contingent : STN -> Z -> option Edge;
  get_assigned_time : STN -> Z -> option F;
  get_edge_weight : STN -> Z -> Z -> F;
  outgoing_executed : STN -> Z -> bool;
  remove_vertex : STN -> Z -> STN;
  floyd_warshall : STN -> bool * STN;
  srea : STN -> option (F * STN);
  RandomState : Type;
  RandomState_seeded : Z -> RandomState;
  resample : Edge -> RandomState -> Edge * RandomState
}.

Context `{!Collaborators}.

(** *** The Simulator object *)

(** The attributes of a [Simulator], and the ghost [run_log] (newest event
    first).  [stn] and [assignment_stn] are [None] until the first
    [simulate]; [_ar_contingent_event_counter] does not exist until then. *)
Record Simulator : Type := {
  stn : option STN;
  assignment_stn : option STN;
  _current_time : F;
  _rand_seed : option Z;
  _rand_state : RandomState;
  num_reschedules : nat;
  num_sent_schedules : nat;
  _ar_contingent_event_counter : option nat;
  run_log : list event
}.

(** [Simulator(random_seed)].  Without a seed numpy seeds the generator
    from the operating system: [os_entropy] is the state it gets then. *)
Definition __init__ (random_seed : option Z) (os_entropy : RandomState) : Simulator :=
  {| stn := None;
     assignment_stn := None;
     _current_time := f0;
     _rand_seed := random_seed;
     _rand_state :=
       match random_seed with
       | Some z => RandomState_seeded z
       | None => os_entropy
       end;
     num_reschedules := 0%nat;
     num_sent_schedules := 0%nat;
     _ar_contingent_event_counter := None;
     run_log := [] |}.

Definition set_stn (x : option STN) (s : Simulator) : Simulator :=
  {| stn := x; assignment_stn := assignment_stn s;
     _current_time := _current_time s; _rand_seed := _rand_seed s;
     _rand_state := _rand_state s; num_reschedules := num_reschedules s;
     num_sent_schedules := num_sent_schedules s;
     _ar_contingent_event_counter := _ar_contingent_event_counter s;
     run_log := run_log s |}.

Definition set_assignment_stn (x : option STN) (s : Simulator) : Simulator :=
  {| stn := stn s; assignment_stn := x;
     _current_time := _current_time s; _rand_seed := _rand_seed s;
     _rand_state := _rand_state s; num_reschedules := num_reschedules s;
     num_sent_schedules := num_sent_schedules s;
     _ar_contingent_event_counter := _ar_contingent_event_counter s;
     run_log := run_log s |}.

Definition set_current_time (t : F) (s : Simulator) : Simulator :=
  {| stn := stn s; assignment_stn := assignment_stn s;
     _current_time := t; _rand_seed := _rand_seed s;
     _rand_state := _rand_state s; num_reschedules := num_reschedules s;
     num_sent_schedules := num_sent_schedules s;
     _ar_contingent_event_counter := _ar_contingent_event_counter s;
     run_log := run_log s |}.

Definition set_ar_counter (c : option nat) (s : Simulator) : Simulator :=
  {| stn := stn s; assignment_stn := assignment_stn s;
     _current_time := _current_time s; _rand_seed := _rand_seed s;
     _rand_state := _rand_state s; num_reschedules := num_reschedules s;
     num_sent_schedules := num_sent_schedules s;
     _ar_contingent_event_counter := c;
     run_log := run_log s |}.

(** Calls on the simulator: a state transformer with an outcome. *)
Definition M (A : Type) : Type := Simulator -> outcome A * Simulator.

Definition ret {A : Type} (a : A) : M A := fun s => (Ret a, s).

Definition raise {A : Type} (e : exn) : M A := fun s => (Raise e, s).

Definition bind {A B : Type} (m : M A) (k : A -> M B) : M B :=
  fun s =>
    match m s with
    | (Ret a, s') => k a s'
    | (Raise e, s') => (Raise e, s')
    | (Fuel, s') => (Fuel, s')
    end.

Definition lift {A : Type} (r : outcome A) : M A := fun s => (r, s).

End Data.

Arguments Edge F : clear implicits.
Arguments STN F : clear implicits.
Arguments Collaborators F : clear implicits.
Arguments Simulator F {_}.
Arguments M F {_} A.

Notation "'let*' x ':=' m 'in' k" := (bind m (fun x => k))
  (at level 10, x pattern, m at level 100, k at level 200).

Section Code.
Context {F : Type} `{!Float F} `{!Collaborators F}.

(** *** Primitive steps *)

(** Reading [self.stn] for a method call on it; the attribute is [None]
    before the first [simulate]. *)
Definition self_stn : M F (STN F) :=
  fun s =>
    match stn s with
    | Some x => (Ret x, s)
    | None => (Raise AttributeError, s)
    end.

Definition log_event (e : event) : M F unit :=
  fun s =>
    (Ret tt,
     {| stn := stn s; assignment_stn := assignment_stn s;
        _current_time := _current_time s; _rand_seed := _rand_seed s;
        _rand_state := _rand_state s; num_reschedules := num_reschedules s;
        num_sent_schedules := num_sent_schedules s;
        _ar_contingent_event_counter := _ar_contingent_event_counter s;
        run_log := e :: run_log s |}).

(** [self.num_reschedules += 1] *)
Definition incr_num_reschedules : M F unit :=
  fun s =>
    (Ret tt,
     {| stn := stn s; assignment_stn := assignment_stn s;
        _current_time := _current_time s; _rand_seed := _rand_seed s;
        _rand_state := _rand_state s;
        num_reschedules := S (num_reschedules s);
        num_sent_schedules := num_sent_schedules s;
        _ar_contingent_event_counter := _ar_contingent_event_counter s;
        run_log := EvResched :: run_log s |}).

(** [self.num_sent_schedules += 1] *)
Definition incr_num_sent_schedules : M F unit :=
  fun s =>
    (Ret tt,
     {| stn := stn s; assignment_stn := assignment_stn s;
        _current_time := _current_time s; _rand_seed := _rand_seed s;
        _rand_state := _rand_state s;
        num_reschedules := num_reschedules s;
        num_sent_schedules := S (num_sent_schedules s);
        _ar_contingent_event_counter := _ar_contingent_event_counter s;
        run_log := EvSent :: run_log s |}).

(** [srea.srea(self.stn)]: the call is logged; before the first [simulate]
    there is no working STN for the solver to read. *)
Definition srea_call : M F (option (F * STN F)) :=
  let* _ := log_event EvSrea in
  let* w := self_stn in
  ret (srea w).

(** *** assign_timepoint *)

(** [vert_id] is what the caller passes: an integer id or [None].  [None]
    differs from [Z_NODE_ID], so the edge updates are attempted with a null
    endpoint; no vertex is stored under the null id, and the call ends in
    the failed [stn.get_vertex(None).execute()] at the latest.  The edge
    updates with a null endpoint are not recorded. *)
Definition assign_timepoint (s : STN F) (vert_id : option Z) (time : F)
    : outcome unit * STN F :=
  match vert_id with
  | None => (Raise AttributeError, s)
  | Some v =>
      let s1 :=
        if negb (Z.eqb v Z_NODE_ID)
        then
          let s' := update_edge s Z_NODE_ID v time true true in
          update_edge s' v Z_NODE_ID (fneg time) true true
        else s in
      match get_vertex s1 v with
      | None => (Raise AttributeError, s1)
      | Some _ => (Ret tt, execute_vertex s1 v)
      end
  end.

(** *** select_next_timepoint *)

(** [all([p.is_executed() for p in predecessors])]: the list is built in
    full, so a missing predecessor raises whatever the others are. *)
Fixpoint all_executed (ps : list (option Vertex)) : outcome bool :=
  match ps with
  | [] => Ret true
  | None :: _ => Raise AttributeError
  | Some p :: ps' =>
      let! b := all_executed ps' in
      Ret (is_executed p && b)
  end.

(** [[edge.get_weight_min() + self.stn.get_assigned_time(edge.i)
      for edge in incoming_reqs]] *)
Fixpoint requirement_times (working : option (STN F)) (reqs : list (Edge F))
    : outcome (list F) :=
  match reqs with
  | [] => Ret []
  | edge :: reqs' =>
      match working with
      | None => Raise AttributeError
      | Some w =>
          match get_assigned_time w (e_i edge) with
          | None => Raise TypeError
          | Some t =>
              let! ts := requirement_times working reqs' in
              Ret (fadd (get_weight_min edge) t :: ts)
          end
      end
  end.

(** Python's [max] of a non-empty list: the first element, replaced by each
    later one that compares greater. *)
Definition py_max (x : F) (xs : list F) : F :=
  fold_left (fun m y => if fgt y m then y else m) xs x.

(** The body of the loop for one vertex [i] that is not executed:
    [None] when the vertex is not enabled ([continue]), and otherwise its
    earliest time and whether it has an incoming contingent edge. *)
Definition candidate (working : option (STN F)) (dispatch : STN F) (i : Z)
    : outcome (option (F * bool)) :=
  let predecessor_ids := map e_i (get_incoming dispatch i) in
  let predecessors := map (get_vertex dispatch) predecessor_ids in
  let! is_enabled := all_executed predecessors in
  if negb is_enabled then Ret None
  else
    let incoming_contingent := get_incoming_contingent dispatch i in
    match incoming_contingent with
    | None =>
        let incoming_reqs := get_incoming dispatch i in
        match incoming_reqs with
        | [] => Ret (Some (f0, false))
        | _ :: _ =>
            let! ts := requirement_times working incoming_reqs in
            match ts with
            | [] => Raise ValueError
            | t :: ts' => Ret (Some (py_max t ts', false))
            end
        end
    | Some c =>
        let sample_time := sampled_time c in
        let cont_pred := e_i c in
        let assigned_time := get_assigned_time dispatch cont_pred in
        match assigned_time with
        | None =>
            let new_time := get_edge_weight dispatch Z_NODE_ID cont_pred in
            Ret (Some (new_time, true))
        | Some t => Ret (Some (fadd t sample_time, true))
        end
    end.

Fixpoint select_loop (working : option (STN F)) (dispatch : STN F)
    (items : list (Z * Vertex))
    (earliest_so_far : option Z) (earliest_so_far_time : F)
    (has_incoming_contingent : bool) : outcome (option Z * F * bool) :=
  match items with
  | [] => Ret (earliest_so_far, earliest_so_far_time, has_incoming_contingent)
  | (i, vert) :: items' =>
      if is_executed vert
      then select_loop working dispatch items'
             earliest_so_far earliest_so_far_time has_incoming_contingent
      else
        let! c := candidate working dispatch i in
        match c with
        | None =>
            select_loop working dispatch items'
              earliest_so_far earliest_so_far_time has_incoming_contingent
        | Some (earliest_time, contingent) =>
            if fgt earliest_so_far_time earliest_time
            then select_loop working dispatch items'
                   (Some i) earliest_time contingent
            else select_loop working dispatch items'
                   earliest_so_far earliest_so_far_time has_incoming_contingent
        end
  end.

(** [working] is [self.stn], consulted for the predecessors' times. *)
Definition select_next_timepoint (working : option (STN F)) (dispatch : STN F)
    (current_time : F) : outcome (option Z * F * bool) :=
  select_loop working dispatch (verts dispatch) None finf false.

(** *** Helpers of the driver *)

(** [self.all_assigned()] *)
Definition all_assigned : M F bool :=
  let* w := self_stn in
  ret (forallb is_executed (get_all_verts w)).

(** [self.remove_old_timepoints(stn)]: the loop over the keys stored before
    the first removal. *)
Fixpoint remove_old_loop (s : STN F) (stored_keys : list Z) : outcome unit * STN F :=
  match stored_keys with
  | [] => (Ret tt, s)
  | v_id :: keys' =>
      if Z.eqb v_id 0 then remove_old_loop s keys'
      else if outgoing_executed s v_id
      then
        match get_vertex s v_id with
        | None => (Raise AttributeError, s)
        | Some vert =>
            if is_executed vert
            then remove_old_loop (remove_vertex s v_id) keys'
            else remove_old_loop s keys'
        end
      else remove_old_loop s keys'
  end.

Definition remove_old_timepoints (s : STN F) : outcome unit * STN F :=
  let stored_keys := map fst (verts s) in
  remove_old_loop s stored_keys.

(** [for e in self.stn.contingent_edges.values(): e.resample(self._rand_state)] *)
Fixpoint resample_edges (es : list ((Z * Z) * Edge F)) (rs : RandomState)
    : list ((Z * Z) * Edge F) * RandomState :=
  match es with
  | [] => ([], rs)
  | (k, e) :: es' =>
      let (e', rs') := resample e rs in
      let (es'', rs'') := resample_edges es' rs' in
      ((k, e') :: es'', rs'')
  end.

Definition resample_stored_stn : M F unit :=
  fun s =>
    match stn s with
    | None => (Raise AttributeError, s)
    | Some w =>
        let (es, rs) := resample_edges (contingent_edges w) (_rand_state s) in
        (Ret tt,
         {| stn := Some {| verts := verts w; edges := edges w;
                           contingent_edges := es;
                           received_timepoints := received_timepoints w |};
            assignment_stn := assignment_stn s;
            _current_time := _current_time s; _rand_seed := _rand_seed s;
            _rand_state := rs;
            num_reschedules := num_reschedules s;
            num_sent_schedules := num_sent_schedules s;
            _ar_contingent_event_counter := _ar_contingent_event_counter s;
            run_log := run_log s |})
    end.

(** [self.get_assigned_times()]: the dictionary, as its items in the order
    of [assignment_stn.verts]. *)
Definition get_assigned_times (s : Simulator F) : outcome (list (Z * option F)) :=
  match assignment_stn s with
  | None => Raise AttributeError
  | Some a =>
      Ret (map (fun kv =>
                  if is_executed (snd kv)
                  then (fst kv, get_assigned_time a (fst kv))
                  else (fst kv, None))
               (verts a))
  end.

(** [self.remaining_contingent_count(stn)] *)
Fixpoint remaining_contingent_loop (s : STN F) (received : list Z) (num_cont : nat)
    : outcome nat :=
  match received with
  | [] => Ret num_cont
  | i :: received' =>
      match get_vertex s i with
      | None => Raise AttributeError
      | Some vert =>
          if negb (is_executed vert)
          then remaining_contingent_loop s received' (num_cont + 1)
          else remaining_contingent_loop s received' num_cont
      end
  end.

Definition remaining_contingent_count (s : STN F) : outcome nat :=
  remaining_contingent_loop s (received_timepoints s) 0%nat.

(** *** Guides and options *)

(** The guide STN is a reference: either the very object [self.stn] refers
    to at the moment ([GSelf]: what is done to one is done to the other), or
    an object of its own. *)
Inductive guide_ref : Type :=
| GSelf
| GObj (g : STN F).

(** [sim_options]: the three thresholds the driver copies, each present or
    not. *)
Record SimOptions : Type := {
  opt_si_threshold : option F;
  opt_ar_threshold : option F;
  opt_alp_threshold : option F
}.

(** The [options] dictionary of [simulate]: the two flags, which are always
    there, and the thresholds found in [sim_options]. *)
Record Options : Type := {
  first_run : bool;
  executed_contingent : bool;
  thresholds : SimOptions
}.

(** [options[key]] for a threshold: [KeyError] when the key is absent. *)
Definition option_item (o : option F) : M F F :=
  match o with
  | Some x => ret x
  | None => raise KeyError
  end.

(** *** The strategies *)

Definition _srea_wrapper (previous_alpha : F) (previous_guide : guide_ref)
    : M F (F * guide_ref) :=
  let* result := srea_call in
  match result with
  | Some (alpha, guide) => ret (alpha, GObj guide)
  | None => ret (previous_alpha, previous_guide)
  end.

Definition _srea_algorithm (previous_alpha : F) (previous_guide : guide_ref)
    (first_run : bool) : M F (F * guide_ref) :=
  if first_run then
    let* _ := incr_num_reschedules in
    let* _ := incr_num_sent_schedules in
    _srea_wrapper previous_alpha previous_guide
  else ret (previous_alpha, previous_guide).

Definition _drea_algorithm (previous_alpha : F) (previous_guide : guide_ref)
    (first_run executed_contingent : bool) : M F (F * guide_ref) :=
  if first_run || executed_contingent then
    let* _ := incr_num_reschedules in
    let* _ := incr_num_sent_schedules in
    _srea_wrapper previous_alpha previous_guide
  else ret (previous_alpha, previous_guide).

Definition _drea_si_algorithm (previous_alpha : F) (previous_guide : guide_ref)
    (first_run executed_contingent : bool) (threshold : F) : M F (F * guide_ref) :=
  if first_run then
    let* result := srea_call in
    let* _ := incr_num_reschedules in
    let* _ := incr_num_sent_schedules in
    match result with
    | None => ret (previous_alpha, previous_guide)
    | Some (new_alpha, maybe_guide) => ret (new_alpha, GObj maybe_guide)
    end
  else if negb executed_contingent then ret (previous_alpha, previous_guide)
  else
    let* result := srea_call in
    let* _ := incr_num_reschedules in
    match result with
    | None => ret (previous_alpha, previous_guide)
    | Some (new_alpha, maybe_guide) =>
        let* num_cont := lift (remaining_contingent_count maybe_guide) in
        let p_0 := fpow (fsub f1 previous_alpha) num_cont in
        let p_1 := fpow (fsub f1 new_alpha) num_cont in
        if fgt (fsub p_1 p_0) threshold then
          let* _ := incr_num_sent_schedules in
          ret (new_alpha, GObj maybe_guide)
        else ret (previous_alpha, previous_guide)
    end.

Definition _drea_alp_algorithm (previous_alpha : F) (previous_guide : guide_ref)
    (first_run executed_contingent : bool) (threshold : F) : M F (F * guide_ref) :=
  if first_run then
    let* _ := incr_num_reschedules in
    let* result := srea_call in
    match result with
    | None => ret (previous_alpha, previous_guide)
    | Some (new_alpha, maybe_guide) => ret (new_alpha, GObj maybe_guide)
    end
  else if negb executed_contingent then ret (previous_alpha, previous_guide)
  else
    let* result := srea_call in
    let* _ := incr_num_reschedules in
    match result with
    | None => ret (previous_alpha, previous_guide)
    | Some (new_alpha, maybe_guide) =>
        (* the count of remaining contingent events is computed and unused *)
        let* num_cont := lift (remaining_contingent_count maybe_guide) in
        if fgt (fabs (fsub new_alpha previous_alpha)) threshold then
          let* _ := incr_num_sent_schedules in
          ret (new_alpha, GObj maybe_guide)
        else ret (previous_alpha, previous_guide)
    end.

(** The search for [n] of the AR test:
    [while (1-previous_alpha)**(n+1) > threshold and attempts < 100].
    [budget] bounds the number of iterations the model follows; [None]
    means it was used up before the loop ended. *)
Fixpoint ar_search (budget : nat) (previous_alpha threshold : F) (n attempts : nat)
    : option (nat * nat) :=
  match budget with
  | O => None
  | S budget' =>
      if fgt (fpow (fsub f1 previous_alpha) (n + 1)) threshold
         && Nat.ltb attempts 100
      then ar_search budget' previous_alpha threshold (n + 1) (attempts + 1)
      else Some (n, attempts)
  end.

(** The loop with a budget one above its own bound of a hundred. *)
Definition ar_bound (previous_alpha threshold : F) : M F nat :=
  match ar_search 101 previous_alpha threshold 0 0 with
  | Some (n, _) => ret n
  | None => lift Fuel
  end.

(** [_drea_ar_algorithm] from [if not executed_contingent:] on, which is
    reached on a step that is not the first and on a first step whose call
    of the solver was infeasible. *)
Definition _drea_ar_tail (previous_alpha : F) (previous_guide : guide_ref)
    (first_run executed_contingent : bool) (threshold : F)
    (contingent_event_counter : nat) : M F (F * guide_ref * nat) :=
  if negb executed_contingent
  then ret (previous_alpha, previous_guide, contingent_event_counter)
  else
    let* n := ar_bound previous_alpha threshold in
    let new_counter := contingent_event_counter in
    if Nat.leb n contingent_event_counter || first_run then
      let* result := srea_call in
      match result with
      | Some (new_alpha, maybe_guide) =>
          let* _ := incr_num_reschedules in
          let* _ := incr_num_sent_schedules in
          ret (new_alpha, GObj maybe_guide, 0%nat)
      | None => ret (previous_alpha, previous_guide, new_counter)
      end
    else ret (previous_alpha, previous_guide, new_counter).

Definition _drea_ar_algorithm (previous_alpha : F) (previous_guide : guide_ref)
    (first_run executed_contingent : bool) (threshold : F)
    (contingent_event_counter : nat) : M F (F * guide_ref * nat) :=
  if first_run then
    let* result := srea_call in
    match result with
    | Some (alpha, guide) =>
        let* _ := incr_num_reschedules in
        ret (alpha, GObj guide, contingent_event_counter)
    | None =>
        _drea_ar_tail previous_alpha previous_guide first_run
          executed_contingent threshold contingent_event_counter
    end
  else
    _drea_ar_tail previous_alpha previous_guide first_run
      executed_contingent threshold contingent_event_counter.

Definition _arsi_algorithm (previous_alpha : F) (previous_guide : guide_ref)
    (first_run executed_contingent : bool) (contingent_event_counter : nat)
    (ar_threshold si_threshold : F) : M F (F * guide_ref * nat) :=
  if first_run then
    let* result := srea_call in
    match result with
    | Some (new_alpha, new_guide) =>
        let* _ := incr_num_reschedules in
        ret (new_alpha, GObj new_guide, contingent_event_counter)
    | None => ret (previous_alpha, previous_guide, contingent_event_counter)
    end
  else if negb executed_contingent
  then ret (previous_alpha, previous_guide, contingent_event_counter)
  else
    let* n := ar_bound previous_alpha ar_threshold in
    let* result :=
      if Nat.leb n contingent_event_counter then
        let* r := srea_call in
        let* _ := incr_num_reschedules in
        ret r
      else ret None in
    match result with
    | None => ret (previous_alpha, previous_guide, contingent_event_counter)
    | Some (new_alpha, maybe_guide) =>
        let* num_cont := lift (remaining_contingent_count maybe_guide) in
        let p_0 := fpow (fsub f1 previous_alpha) num_cont in
        let p_1 := fpow (fsub f1 new_alpha) num_cont in
        if fgt (fsub p_1 p_0) si_threshold then
          let* _ := incr_num_sent_schedules in
          ret (new_alpha, GObj maybe_guide, 0%nat)
        else ret (previous_alpha, previous_guide, contingent_event_counter)
    end.

(** [if options["executed_contingent"]: self._ar_contingent_event_counter += 1] *)
Definition bump_ar_counter (executed_contingent : bool) : M F unit :=
  fun s =>
    if executed_contingent then
      match _ar_contingent_event_counter s with
      | None => (Raise AttributeError, s)
      | Some c => (Ret tt, set_ar_counter (Some (c + 1)%nat) s)
      end
    else (Ret tt, s).

(** Reading [self._ar_contingent_event_counter] as an argument. *)
Definition read_ar_counter : M F nat :=
  fun s =>
    match _ar_contingent_event_counter s with
    | None => (Raise AttributeError, s)
    | Some c => (Ret c, s)
    end.

(** [self._ar_contingent_event_counter = ans[2]] *)
Definition store_ar_counter (c : nat) : M F unit :=
  fun s => (Ret tt, set_ar_counter (Some c) s).

(** *** get_guide *)

Definition get_guide (execution_strat : string) (previous_alpha : F)
    (previous_guide : guide_ref) (options : Options) : M F (F * guide_ref) :=
  if String.eqb execution_strat "early" then
    ret (f1, GSelf)
  else if String.eqb execution_strat "srea" then
    _srea_algorithm previous_alpha previous_guide (first_run options)
  else if String.eqb execution_strat "drea" then
    _drea_algorithm previous_alpha previous_guide
      (first_run options) (executed_contingent options)
  else if String.eqb execution_strat "drea-si" then
    let* si := option_item (opt_si_threshold (thresholds options)) in
    _drea_si_algorithm previous_alpha previous_guide
      (first_run options) (executed_contingent options) si
  else if String.eqb execution_strat "drea-alp" then
    let* alp := option_item (opt_alp_threshold (thresholds options)) in
    _drea_alp_algorithm previous_alpha previous_guide
      (first_run options) (executed_contingent options) alp
  else if String.eqb execution_strat "drea-ar" then
    let* _ := bump_ar_counter (executed_contingent options) in
    let* ar := option_item (opt_ar_threshold (thresholds options)) in
    let* c := read_ar_counter in
    let* ans := _drea_ar_algorithm previous_alpha previous_guide
                  (first_run options) (executed_contingent options) ar c in
    let* _ := store_ar_counter (snd ans) in
    ret (fst ans)
  else if String.eqb execution_strat "arsi" then
    let* _ := bump_ar_counter (executed_contingent options) in
    let* c := read_ar_counter in
    let* ar := option_item (opt_ar_threshold (thresholds options)) in
    let* si := option_item (opt_si_threshold (thresholds options)) in
    let* ans := _arsi_algorithm previous_alpha previous_guide
                  (first_run options) (executed_contingent options) c ar si in
    let* _ := store_ar_counter (snd ans) in
    ret (fst ans)
  else raise ValueError.

(** *** simulate *)

(** [self.propagate_constraints(stn_to_prop)] *)
Definition propagate_constraints (stn_to_prop : STN F) : bool * STN F :=
  floyd_warshall stn_to_prop.

(** The STN a guide reference stands for. *)
Definition deref (g : guide_ref) : M F (STN F) :=
  match g with
  | GSelf => self_stn
  | GObj x => ret x
  end.

(** [self.assign_timepoint(guide_stn, v, t)]: through an alias it is
    [self.stn] that changes. *)
Definition assign_guide (g : guide_ref) (vert_id : option Z) (time : F)
    : M F guide_ref :=
  fun s =>
    match g with
    | GSelf =>
        match stn s with
        | None => (Raise AttributeError, s)
        | Some w =>
            match assign_timepoint w vert_id time with
            | (Ret _, w') => (Ret GSelf, set_stn (Some w') s)
            | (Raise e, w') => (Raise e, set_stn (Some w') s)
            | (Fuel, w') => (Fuel, set_stn (Some w') s)
            end
        end
    | GObj x =>
        match assign_timepoint x vert_id time with
        | (Ret _, x') => (Ret (GObj x'), s)
        | (Raise e, _) => (Raise e, s)
        | (Fuel, _) => (Fuel, s)
        end
    end.

(** [self.assign_timepoint(self.stn, v, t)] *)
Definition assign_working (vert_id : option Z) (time : F) : M F unit :=
  fun s =>
    match stn s with
    | None => (Raise AttributeError, s)
    | Some w =>
        let (r, w') := assign_timepoint w vert_id time in
        (r, set_stn (Some w') s)
    end.

(** [self.assign_timepoint(self.assignment_stn, v, t)] *)
Definition assign_record (vert_id : option Z) (time : F) : M F unit :=
  fun s =>
    match assignment_stn s with
    | None => (Raise AttributeError, s)
    | Some a =>
        let (r, a') := assign_timepoint a vert_id time in
        (r, set_assignment_stn (Some a') s)
    end.

(** [self.stn = stn_copy]: a guide that was the old object stays that
    object. *)
Definition rebind_stn (stn_copy : STN F) (g : guide_ref) : M F guide_ref :=
  fun s =>
    let g' :=
      match g, stn s with
      | GSelf, Some old => GObj old
      | _, _ => g
      end in
    (Ret g', set_stn (Some stn_copy) s).

(** [self.remove_old_timepoints(self.stn)] *)
Definition cleanup : M F unit :=
  fun s =>
    match stn s with
    | None => (Raise AttributeError, s)
    | Some w =>
        let (r, w') := remove_old_timepoints w in
        (r, set_stn (Some w') s)
    end.

(** The trace message [str(self.get_assigned_times())] is built whatever
    the verbosity. *)
Definition trace_assignments : M F unit :=
  fun s =>
    match get_assigned_times s with
    | Ret _ => (Ret tt, s)
    | Raise e => (Raise e, s)
    | Fuel => (Fuel, s)
    end.

(** The [while not self.all_assigned()] loop; [fuel] bounds the number of
    iterations followed. *)
Fixpoint simulate_loop (fuel : nat) (execution_strat : string)
    (first_run : bool) (options : Options) (current_alpha : F)
    (guide_stn : guide_ref) : M F bool :=
  match fuel with
  | O => lift Fuel
  | S fuel' =>
      let* assigned := all_assigned in
      if assigned then
        let* _ := trace_assignments in
        ret true
      else
        let options :=
          {| first_run := first_run;
             executed_contingent := executed_contingent options;
             thresholds := thresholds options |} in
        let* ag := get_guide execution_strat current_alpha guide_stn options in
        let current_alpha := fst ag in
        let guide_stn := snd ag in
        let* dispatch := deref guide_stn in
        let* selection :=
          (fun s => (select_next_timepoint (stn s) dispatch (_current_time s), s)) in
        let next_vert_id := fst (fst selection) in
        let next_time := snd (fst selection) in
        let executed_contingent := snd selection in
        let options :=
          {| first_run := first_run;
             executed_contingent := executed_contingent;
             thresholds := thresholds options |} in
        let* guide_stn := assign_guide guide_stn next_vert_id next_time in
        let* _ := assign_working next_vert_id next_time in
        let* _ := assign_record next_vert_id next_time in
        let* w := self_stn in
        let stn_copy := copy w in
        let propagated := propagate_constraints stn_copy in
        if negb (fst propagated) then
          let* _ := trace_assignments in
          ret false
        else
          let* guide_stn := rebind_stn (snd propagated) guide_stn in
          let* _ := cleanup in
          let* _ := (fun s => (Ret tt, set_current_time next_time s)) in
          simulate_loop fuel' execution_strat false options current_alpha guide_stn
  end.

(** The initial setup of [simulate]: every attribute but the seed and the
    random state is overwritten. *)
Definition setup (starting_stn : STN F) (s : Simulator F) : Simulator F :=
  {| stn := Some (copy starting_stn);
     assignment_stn := Some (copy starting_stn);
     _current_time := f0;
     _rand_seed := _rand_seed s;
     _rand_state := _rand_state s;
     num_reschedules := 0%nat;
     num_sent_schedules := 0%nat;
     _ar_contingent_event_counter := Some 0%nat;
     run_log := [] |}.

Definition simulate (fuel : nat) (starting_stn : STN F)
    (execution_strat : string) (sim_options : SimOptions) : M F bool :=
  fun s =>
    (let* _ := resample_stored_stn in
     let options :=
       {| first_run := true;
          executed_contingent := false;
          thresholds := sim_options |} in
     simulate_loop fuel execution_strat true options f0 GSelf)
      (setup starting_stn s).

End Code.

Arguments guide_ref F : clear implicits.
Arguments SimOptions F : clear implicits.
Arguments Options F : clear implicits.

(** *** What the properties speak of *)

Fixpoint resched_count (l : list event) : nat :=
  match l with
  | [] => 0
  | EvResched :: l' => S (resched_count l')
  | _ :: l' => resched_count l'
  end.

Fixpoint sent_count (l : list event) : nat :=
  match l with
  | [] => 0
  | EvSent :: l' => S (sent_count l')
  | _ :: l' => sent_count l'
  end.

Fixpoint srea_count (l : list event) : nat :=
  match l with
  | [] => 0
  | EvSrea :: l' => S (srea_count l')
  | _ :: l' => srea_count l'
  end.

(** The counter law at the moment the log was [l] and at every earlier
    moment. *)
Fixpoint law_so_far (l : list event) : Prop :=
  (sent_count l <= resched_count l)%nat /\
  match l with
  | [] => True
  | _ :: l' => law_so_far l'
  end.

(** The literals [get_guide] has a branch for. *)
Definition accepted_strategies : list string :=
  ["early"; "srea"; "drea"; "drea-si"; "drea-alp"; "drea-ar"; "arsi"]%string.

Section Observations.
Context {F : Type} `{!Float F} `{!Collaborators F}.

(** [respects R m]: every call of [m] takes a state to an [R]-related one,
    whatever its outcome. *)
Definition respects (R : relation (Simulator F)) {A : Type} (m : M F A) : Prop :=
  forall s, R s (snd (m s)).

(** The steps of the driver other than [get_guide] and the resampling touch
    neither the counters, the log, nor the random state, and leave a
    working STN in place. *)
Definition quiet (s s' : Simulator F) : Prop :=
  num_reschedules s' = num_reschedules s
  /\ num_sent_schedules s' = num_sent_schedules s
  /\ run_log s' = run_log s
  /\ _rand_state s' = _rand_state s
  /\ _rand_seed s' = _rand_seed s
  /\ (is_Some (stn s) -> is_Some (stn s')).

(** The outcome of the search for [n], which reads no state. *)
Definition ar_outcome (previous_alpha threshold : F) : outcome nat :=
  match ar_search 101 previous_alpha threshold 0 0 with
  | Some (n, _) => Ret n
  | None => Fuel
  end.

(** The counters are the numbers of increments logged, and the counter law
    held at every moment of the log. *)
Definition ledger_ok (s : Simulator F) : Prop :=
  num_reschedules s = resched_count (run_log s)
  /\ num_sent_schedules s = sent_count (run_log s)
  /\ law_so_far (run_log s).

Definition keeps_ledger_ok (s s' : Simulator F) : Prop := ledger_ok s -> ledger_ok s'.

(** The random state and the seed are read by no strategy. *)
Definition same_rng (s s' : Simulator F) : Prop :=
  _rand_state s' = _rand_state s /\ _rand_seed s' = _rand_seed s.

(** The number of received timepoints of [g] that are not executed. *)
Definition unexecuted_received (g : STN F) : nat :=
  length (List.filter (fun i => match get_vertex g i with
                                | Some vert => negb (is_executed vert)
                                | None => false
                                end)
                      (received_timepoints g)).

(** The reschedules counted are the calls of the solver logged. *)
Definition calls_counted (s : Simulator F) : Prop :=
  is_Some (stn s) /\ num_reschedules s = srea_count (run_log s).

Definition keeps_calls_counted (s s' : Simulator F) : Prop :=
  calls_counted s -> calls_counted s'.

End Observations.

(** *** One iteration of the loop, and what its steps keep *)

Section Iteration.
Context {F : Type} `{!Float F} `{!Collaborators F}.

(** The body of the loop of [simulate] from the selection on: [options] is
    the dictionary as [get_guide] saw it and [ag] the answer of
    [get_guide]. *)
Definition after_guide (fuel' : nat) (execution_strat : string)
    (options : Options F) (ag : F * guide_ref F) : M F bool :=
  let current_alpha := fst ag in
  let guide_stn := snd ag in
  let* dispatch := deref guide_stn in
  let* selection :=
    (fun s => (select_next_timepoint (stn s) dispatch (_current_time s), s)) in
  let next_vert_id := fst (fst selection) in
  let next_time := snd (fst selection) in
  let executed_contingent := snd selection in
  let options :=
    {| first_run := first_run options;
       executed_contingent := executed_contingent;
       thresholds := thresholds options |} in
  let* guide_stn := assign_guide guide_stn next_vert_id next_time in
  let* _ := assign_working next_vert_id next_time in
  let* _ := assign_record next_vert_id next_time in
  let* w := self_stn in
  let stn_copy := copy w in
  let propagated := propagate_constraints stn_copy in
  if negb (fst propagated) then
    let* _ := trace_assignments in
    ret false
  else
    let* guide_stn := rebind_stn (snd propagated) guide_stn in
    let* _ := cleanup in
    let* _ := (fun s => (Ret tt, set_current_time next_time s)) in
    simulate_loop fuel' execution_strat false options current_alpha guide_stn.

(** The vertex ids of the record of assignments, in order. *)
Definition record_keys (s : Simulator F) : option (list Z) :=
  option_map (fun a => map fst (verts a)) (assignment_stn s).

(** What every step of the driver other than [get_guide] and the
    resampling keeps: what [quiet] says, the counter of contingent events
    and the vertex ids of the record of assignments. *)
Definition calm (s s' : Simulator F) : Prop :=
  quiet s s'
  /\ _ar_contingent_event_counter s' = _ar_contingent_event_counter s
  /\ record_keys s' = record_keys s.

(** The counters and the log are as they were. *)
Definition same_ledger (s s' : Simulator F) : Prop :=
  run_log s' = run_log s
  /\ num_reschedules s' = num_reschedules s
  /\ num_sent_schedules s' = num_sent_schedules s.

(** No schedule was counted as sent. *)
Definition same_sent (s s' : Simulator F) : Prop :=
  num_sent_schedules s' = num_sent_schedules s.

(** The vertex ids of the record of assignments are as they were. *)
Definition same_record_keys (s s' : Simulator F) : Prop :=
  record_keys s' = record_keys s.

(** [establishes P Q m]: from a state in [P], a call of [m] ends in a
    state in [Q], whatever its outcome. *)
Definition establishes (P Q : Simulator F -> Prop) {A : Type} (m : M F A) : Prop :=
  forall s, P s -> Q (snd (m s)).

(** [ends Q m]: the outcome and the final state of every call of [m] are
    related by [Q]. *)
Definition ends {A : Type} (Q : outcome A -> Simulator F -> Prop) (m : M F A) : Prop :=
  forall s, Q (fst (m s)) (snd (m s)).

(** Every timepoint of the working STN is executed. *)
Definition all_done (s : Simulator F) : Prop :=
  exists w, stn s = Some w /\ forallb is_executed (get_all_verts w) = true.

(** A vertex that [remove_old_timepoints] may remove: not Z, executed, and
    with its outgoing edges leading to executed vertices. *)
Definition removable (s : STN F) (v : Z) : bool :=
  negb (Z.eqb v 0) && outgoing_executed s v
  && match get_vertex s v with
     | Some vert => is_executed vert
     | None => true
     end.

(** The requirement predecessors of [i] in [dispatch], as the selection
    looks them up. *)
Definition predecessors (dispatch : STN F) (i : Z) : list (option Vertex) :=
  map (get_vertex dispatch) (map e_i (get_incoming dispatch i)).

(** The edge map once [v] is pinned at [t]: untouched for Z, and otherwise
    with the pair from Z set to [t] and the pair to Z set to [-t]. *)
Definition pinned_edges (e : gmap (Z * Z) F) (v : Z) (t : F) : gmap (Z * Z) F :=
  if Z.eqb v Z_NODE_ID then e
  else <[(v, Z_NODE_ID) := fneg t]> (<[(Z_NODE_ID, v) := t]> e).

(** The vertices once the one stored under [v] is flagged as executed. *)
Definition flagged (l : list (Z * Vertex)) (v : Z) : list (Z * Vertex) :=
  map (fun p => if Z.eqb (fst p) v then (fst p, execute (snd p)) else p) l.

End Iteration.

End montsim.

(** ** A concrete network library, for running the simulator *)

Module examples.
Import montsim.

Definition ex_edge_list (s : STN xfloat) : list ((Z * Z) * xfloat) :=
  map_to_list (edges s).

Definition is_contingent_pair (s : STN xfloat) (k : Z * Z) : bool :=
  existsb (fun ce =>
             (Z.eqb (fst (fst ce)) (fst k) && Z.eqb (snd (fst ce)) (snd k))
             || (Z.eqb (fst (fst ce)) (snd k) && Z.eqb (snd (fst ce)) (fst k)))
          (contingent_edges s).

(** The requirement edges into [v]: none for Z, and for another timepoint
    every weighted pair [(i, v)] that is not a contingent edge or the
    reverse of one; the lower bound is read off the reverse pair. *)
Definition ex_get_incoming (s : STN xfloat) (v : Z) : list (Edge xfloat) :=
  if Z.eqb v 0 then [] else
  map (fun kw =>
         {| e_i := fst (fst kw); e_j := v;
            get_weight_min :=
              match edges s !! (v, fst (fst kw)) with
              | Some w => xneg w
              | None => NInf
              end;
            sampled_time := Fin 0 |})
      (filter (fun kw => bool_decide (snd (fst kw) = v)
                         ∧ is_contingent_pair s (fst kw) = false)
              (ex_edge_list s)).

Definition ex_get_incoming_contingent (s : STN xfloat) (v : Z) : option (Edge xfloat) :=
  snd <$> find (fun ce => Z.eqb (snd (fst ce)) v) (contingent_edges s).

(** A timepoint is assigned when its bounds from and to Z meet. *)
Definition ex_get_assigned_time (s : STN xfloat) (v : Z) : option xfloat :=
  if Z.eqb v 0 then Some (Fin 0)
  else
    match edges s !! (0, v), edges s !! (v, 0) with
    | Some a, Some b =>
        if xgt (xadd a b) (Fin 0) || xgt (Fin 0) (xadd a b) then None else Some a
    | _, _ => None
    end.

Definition ex_get_edge_weight (s : STN xfloat) (i j : Z) : xfloat :=
  default PInf (edges s !! (i, j)).

Definition ex_outgoing_executed (s : STN xfloat) (v : Z) : bool :=
  forallb (fun kw =>
             negb (Z.eqb (fst (fst kw)) v)
             || match get_vertex s (snd (fst kw)) with
                | Some x => is_executed x
                | None => true
                end)
          (ex_edge_list s).

Definition ex_remove_vertex (s : STN xfloat) (v : Z) : STN xfloat :=
  {| verts := filter (fun kv => fst kv ≠ v) (verts s);
     edges := filter (fun kw => fst (fst kw) ≠ v ∧ snd (fst kw) ≠ v) (edges s);
     contingent_edges :=
       filter (fun ce => fst (fst ce) ≠ v ∧ snd (fst ce) ≠ v) (contingent_edges s);
     received_timepoints := filter (fun r => r ≠ v) (received_timepoints s) |}.

(** Consistency is checked on the two-cycles only, and nothing is
    tightened. *)
Definition ex_floyd_warshall (s : STN xfloat) : bool * STN xfloat :=
  (forallb (fun kw =>
              match edges s !! (snd (fst kw), fst (fst kw)) with
              | Some w' => negb (xgt (Fin 0) (xadd (snd kw) w'))
              | None => true
              end)
           (ex_edge_list s),
   s).

(** The sampler counts its draws; the duration drawn is the number of the
    draw. *)
Definition ex_resample (e : Edge xfloat) (rs : nat) : Edge xfloat * nat :=
  ({| e_i := e_i e; e_j := e_j e; get_weight_min := get_weight_min e;
      sampled_time := Fin (inject_Z (Z.of_nat rs)) |},
   S rs).

Definition ex_collaborators (oracle : STN xfloat -> option (xfloat * STN xfloat))
    : Collaborators xfloat :=
  {| get_incoming := ex_get_incoming;
     get_incoming_contingent := ex_get_incoming_contingent;
     get_assigned_time := ex_get_assigned_time;
     get_edge_weight := ex_get_edge_weight;
     outgoing_executed := ex_outgoing_executed;
     remove_vertex := ex_remove_vertex;
     floyd_warshall := ex_floyd_warshall;
     srea := oracle;
     RandomState := nat;
     RandomState_seeded := Z.to_nat;
     resample := ex_resample |}.

(** A solver that finds every network infeasible, and one that hands the
    network back as its own guide with risk one half. *)
Definition infeasible (s : STN xfloat) : option (xfloat * STN xfloat) := None.

Definition half_risk (s : STN xfloat) : option (xfloat * STN xfloat) :=
  Some (Fin (1 # 2), s).

Definition unexecuted : Vertex := {| is_executed := false |}.

Definition mk_stn (vs : list Z) (es : list ((Z * Z) * xfloat)) : STN xfloat :=
  {| verts := map (fun v => (v, unexecuted)) vs;
     edges := list_to_map es;
     contingent_edges := [];
     received_timepoints := [] |}.

(** No timepoint at all. *)
Definition stn_empty : STN xfloat := mk_stn [] [].

(** Z and one timepoint five units after it. *)
Definition stn_trivial : STN xfloat := mk_stn [0; 1] [((0, 1), Fin 5); ((1, 0), Fin (-5))].

(** Z and two timepoints, each required to come after the other
    ([t2 - t1] and [t1 - t2] both in [[0, 5]]: consistent with [t1 = t2]). *)
Definition stn_mutual : STN xfloat :=
  mk_stn [0; 1; 2] [((1, 2), Fin 5); ((2, 1), Fin 5)].

(** Z, a timepoint at Z, and a contingent duration in [[2, 4]] from that
    timepoint to a received one. *)
Definition stn_cont : STN xfloat :=
  {| verts := [(0, unexecuted); (1, unexecuted); (2, unexecuted)];
     edges := list_to_map [((0, 1), Fin 0); ((1, 0), Fin 0);
                           ((1, 2), Fin 4); ((2, 1), Fin (-2))];
     contingent_edges :=
       [((1, 2), {| e_i := 1; e_j := 2; get_weight_min := Fin 2;
                    sampled_time := Fin 0 |})];
     received_timepoints := [2] |}.

Definition no_options : SimOptions xfloat :=
  {| opt_si_threshold := None; opt_ar_threshold := None; opt_alp_threshold := None |}.

Definition all_options (si ar alp : xfloat) : SimOptions xfloat :=
  {| opt_si_threshold := Some si; opt_ar_threshold := Some ar;
     opt_alp_threshold := Some alp |}.

Definition fresh (oracle : STN xfloat -> option (xfloat * STN xfloat))
    : @Simulator xfloat (ex_collaborators oracle) :=
  @__init__ xfloat _ (ex_collaborators oracle) (Some 7) 0%nat.

(** The state of [fresh] once [simulate] has set up a run on [s]. *)
Definition ready (oracle : STN xfloat -> option (xfloat * STN xfloat))
    (s : STN xfloat) : @Simulator xfloat (ex_collaborators oracle) :=
  @setup xfloat _ (ex_collaborators oracle) s (fresh oracle).

(** The options of a step that is not the first and follows a contingent
    event. *)
Definition after_contingent (o : SimOptions xfloat) : Options xfloat :=
  {| first_run := false; executed_contingent := true; thresholds := o |}.

(** The options of the first step. *)
Definition at_first (o : SimOptions xfloat) : Options xfloat :=
  {| first_run := true; executed_contingent := false; thresholds := o |}.

(** What [select_next_timepoint] answers in state [s] when the guide is the
    working STN, as under [early]. *)
Definition selection_on_working {H : Collaborators xfloat} (s : Simulator xfloat)
    : outcome (option Z * xfloat * bool) :=
  match stn s with
  | Some w => select_next_timepoint (stn s) w (_current_time s)
  | None => Raise AttributeError
  end.

Definition run (oracle : STN xfloat -> option (xfloat * STN xfloat)) (fuel : nat)
    (s : STN xfloat) (strat : string) (o : SimOptions xfloat) :=
  @simulate xfloat _ (ex_collaborators oracle) fuel s strat o (fresh oracle).

(** Z and a timepoint that is to come at most one unit and at least two
    units after it: inconsistent from the start. *)
Definition stn_inconsistent : STN xfloat :=
  mk_stn [0; 1] [((0, 1), Fin 1); ((1, 0), Fin (-2))].

(** [stn_trivial] once both of its timepoints are assigned. *)
Definition stn_trivial_done : STN xfloat :=
  snd (assign_timepoint
         (snd (assign_timepoint stn_trivial (Some 0) (Fin 0))) (Some 1) (Fin 5)).

End examples.

(** * Properties *)

Import montsim.

(** ** sim2csv *)

(** C10. Whatever the row and the path, and whatever the file system would
    answer, [save_csv_row] raises [NameError] at its first statement ([pd]
    is bound nowhere: the module imports [pandas] under its own name), and
    no file operation has taken place. *)
Theorem save_csv_row_raises_NameError :
  forall (Row : Type) (isfile : string -> bool) (row : Row) (to_file : string),
    sim2csv.save_csv_row isfile row to_file = (Raise NameError, []).
Proof.
  intros Row isfile row to_file.
  unfold sim2csv.save_csv_row.
  reflexivity.
Qed.

(** ** The ghost log *)

Lemma law_so_far_suffix (l past : list event) :
  law_so_far l -> past `suffix_of` l -> (sent_count past <= resched_count past)%nat.
Proof.
  induction l as [|e l IH]; intros Hl Hs.
  - apply suffix_nil_inv in Hs. subst past. simpl. lia.
  - destruct past as [|p past]; [simpl; lia|].
    apply suffix_cons_inv in Hs. destruct Hs as [Hs|Hs].
    + rewrite Hs. exact (proj1 Hl).
    + apply IH; [exact (proj2 Hl) | exact Hs].
Qed.

Section Properties.
Context {F : Type} `{!Float F} `{!Collaborators F}.

(** ** assign_timepoint *)

Lemma update_edge_forced (s : STN F) (i j : Z) (w : F) :
  edges (update_edge s i j w true true) = <[(i, j) := w]> (edges s).
Proof.
  unfold update_edge. simpl. destruct (edges s !! (i, j)); reflexivity.
Qed.

Lemma lookup_vert_execute (l : list (Z * Vertex)) (v u : Z) :
  lookup_vert
    (map (fun p => if Z.eqb (fst p) v then (fst p, execute (snd p)) else p) l) u
  = if Z.eqb u v then execute <$> lookup_vert l u else lookup_vert l u.
Proof.
  induction l as [|[k x] l IH]; simpl.
  - destruct (Z.eqb u v); reflexivity.
  - destruct (Z.eqb k v) eqn:Ekv; simpl.
    + destruct (Z.eqb k u) eqn:Eku.
      * apply Z.eqb_eq in Ekv, Eku. subst.
        rewrite Z.eqb_refl. reflexivity.
      * exact IH.
    + destruct (Z.eqb k u) eqn:Eku.
      * apply Z.eqb_eq in Eku. subst. rewrite Ekv. reflexivity.
      * exact IH.
Qed.

(** C9. [assign_timepoint(stn, v, t)] for an integer id [v].  When [v] is
    not Z the edge map afterwards is the old one with [(Z, v)] set to [t]
    and [(v, Z)] set to [-t] (made if absent, overwritten if present) and
    every other pair as before; when [v] is Z the edge map is the old one.
    In both cases a vertex stored under [v] ends up executed and the call
    returns, no other vertex changes, and the contingent edges and the
    received timepoints are as before. *)
Theorem assign_timepoint_effect (s : STN F) (v : Z) (t : F) :
  let r := assign_timepoint s (Some v) t in
  (v <> Z_NODE_ID ->
     edges (snd r) = <[(v, Z_NODE_ID) := fneg t]> (<[(Z_NODE_ID, v) := t]> (edges s))
     /\ edges (snd r) !! (Z_NODE_ID, v) = Some t
     /\ edges (snd r) !! (v, Z_NODE_ID) = Some (fneg t)
     /\ (forall k, k <> (Z_NODE_ID, v) -> k <> (v, Z_NODE_ID) ->
           edges (snd r) !! k = edges s !! k))
  /\ (v = Z_NODE_ID -> edges (snd r) = edges s)
  /\ (is_Some (get_vertex s v) ->
        fst r = Ret tt /\ is_executed <$> get_vertex (snd r) v = Some true)
  /\ (forall u, u <> v -> get_vertex (snd r) u = get_vertex s u)
  /\ contingent_edges (snd r) = contingent_edges s
  /\ received_timepoints (snd r) = received_timepoints s.
Proof.
  intros r. subst r. unfold assign_timepoint.
  set (s1 := if negb (Z.eqb v Z_NODE_ID)
             then update_edge (update_edge s Z_NODE_ID v t true true)
                    v Z_NODE_ID (fneg t) true true
             else s).
  assert (Hverts : verts s1 = verts s).
  { subst s1. destruct (negb (Z.eqb v Z_NODE_ID)); reflexivity. }
  assert (Hcont : contingent_edges s1 = contingent_edges s
                  /\ received_timepoints s1 = received_timepoints s).
  { subst s1. destruct (negb (Z.eqb v Z_NODE_ID)); split; reflexivity. }
  assert (Hgv : get_vertex s1 v = get_vertex s v).
  { unfold get_vertex. rewrite Hverts. reflexivity. }
  assert (Hedges : edges (snd (match get_vertex s1 v with
                               | Some _ => (Ret tt, execute_vertex s1 v)
                               | None => (Raise AttributeError, s1)
                               end)) = edges s1).
  { destruct (get_vertex s1 v); reflexivity. }
  assert (Hforced : v <> Z_NODE_ID ->
            edges s1 = <[(v, Z_NODE_ID) := fneg t]> (<[(Z_NODE_ID, v) := t]> (edges s))).
  { intros Hv. subst s1. apply Z.eqb_neq in Hv. rewrite Hv. cbn [negb].
    rewrite !update_edge_forced. reflexivity. }
  split; [|split; [|split; [|split; [|split]]]].
  - intros Hv. rewrite Hedges, (Hforced Hv).
    split; [reflexivity|]. split; [|split].
    + rewrite lookup_insert_ne by (intros E; inversion E; congruence).
      apply lookup_insert_eq.
    + apply lookup_insert_eq.
    + intros k Hk1 Hk2. rewrite !lookup_insert_ne by congruence. reflexivity.
  - intros Hv. rewrite Hedges. subst s1.
    apply Z.eqb_eq in Hv. rewrite Hv. reflexivity.
  - intros [x Hx]. rewrite Hgv, Hx. simpl. split; [reflexivity|].
    unfold get_vertex at 1. unfold execute_vertex. simpl.
    rewrite lookup_vert_execute, Z.eqb_refl.
    fold (get_vertex s1 v). rewrite Hgv, Hx. reflexivity.
  - intros u Hu. destruct (get_vertex s1 v) eqn:E; simpl.
    + unfold get_vertex, execute_vertex. simpl.
      rewrite lookup_vert_execute.
      apply Z.eqb_neq in Hu. rewrite Hu, Hverts. reflexivity.
    + unfold get_vertex. rewrite Hverts. reflexivity.
  - destruct (get_vertex s1 v); simpl; apply Hcont.
  - destruct (get_vertex s1 v); simpl; apply Hcont.
Qed.

(** ** Steps and what they leave alone *)

Lemma respects_ret (R : relation (Simulator F)) `{!Reflexive R} {A : Type} (a : A) :
  respects R (ret a).
Proof. intros s. simpl. reflexivity. Qed.

Lemma respects_raise (R : relation (Simulator F)) `{!Reflexive R} {A : Type} (e : exn) :
  respects R (@raise F _ A e).
Proof. intros s. simpl. reflexivity. Qed.

Lemma respects_lift (R : relation (Simulator F)) `{!Reflexive R} {A : Type}
    (r : outcome A) :
  respects R (lift r).
Proof. intros s. simpl. reflexivity. Qed.

Lemma respects_bind (R : relation (Simulator F)) `{!PreOrder R} {A B : Type}
    (m : M F A) (k : A -> M F B) :
  respects R m -> (forall a, respects R (k a)) -> respects R (bind m k).
Proof.
  intros Hm Hk s. unfold bind.
  specialize (Hm s). destruct (m s) as [[a| e |] s']; simpl in *.
  - etransitivity; [exact Hm | apply Hk].
  - exact Hm.
  - exact Hm.
Qed.

#[local] Instance quiet_preorder : PreOrder quiet.
Proof.
  split.
  - intros s. unfold quiet. tauto.
  - intros a b c (H1 & H2 & H3 & H4 & H5 & H6) (K1 & K2 & K3 & K4 & K5 & K6).
    unfold quiet. rewrite K1, K2, K3, K4, K5. tauto.
Qed.

Lemma quiet_self_stn : respects quiet self_stn.
Proof. intros s. unfold self_stn. destruct (stn s); simpl; reflexivity. Qed.

Lemma quiet_all_assigned : respects quiet all_assigned.
Proof.
  apply respects_bind; [typeclasses eauto | apply quiet_self_stn |].
  intros w. apply respects_ret; typeclasses eauto.
Qed.

Lemma quiet_trace_assignments : respects quiet trace_assignments.
Proof.
  intros s. unfold trace_assignments.
  destruct (get_assigned_times s); simpl; reflexivity.
Qed.

Lemma quiet_deref (g : guide_ref F) : respects quiet (deref g).
Proof.
  destruct g; simpl; [apply quiet_self_stn | apply respects_ret; typeclasses eauto].
Qed.

Lemma quiet_assign_guide (g : guide_ref F) (v : option Z) (t : F) :
  respects quiet (assign_guide g v t).
Proof.
  intros s. unfold assign_guide. destruct g as [|x].
  - destruct (stn s) as [w|]; [|simpl; reflexivity].
    destruct (assign_timepoint w v t) as [[?|?|] w']; simpl; unfold quiet; simpl; repeat split; eauto.
  - destruct (assign_timepoint x v t) as [[?|?|] x']; simpl; reflexivity.
Qed.

Lemma quiet_assign_working (v : option Z) (t : F) : respects quiet (assign_working v t).
Proof.
  intros s. unfold assign_working.
  destruct (stn s) as [w|]; [|simpl; reflexivity].
  destruct (assign_timepoint w v t) as [r w']; simpl; unfold quiet; simpl; repeat split; eauto.
Qed.

Lemma quiet_assign_record (v : option Z) (t : F) : respects quiet (assign_record v t).
Proof.
  intros s. unfold assign_record.
  destruct (assignment_stn s) as [a|]; [|simpl; reflexivity].
  destruct (assign_timepoint a v t) as [r a']; simpl; unfold quiet; simpl; repeat split; eauto.
Qed.

Lemma quiet_rebind_stn (c : STN F) (g : guide_ref F) : respects quiet (rebind_stn c g).
Proof. intros s. unfold rebind_stn, quiet. simpl. repeat split; eauto. Qed.

Lemma quiet_cleanup : respects quiet cleanup.
Proof.
  intros s. unfold cleanup.
  destruct (stn s) as [w|]; [|simpl; reflexivity].
  destruct (remove_old_timepoints w) as [r w']; simpl; unfold quiet; simpl; repeat split; eauto.
Qed.

(** The loop respects every preorder that [get_guide] respects and that
    relates any two states the quiet steps relate. *)
Lemma simulate_loop_respects (R : relation (Simulator F)) `{!PreOrder R}
    (execution_strat : string) :
  (forall s s', quiet s s' -> R s s') ->
  (forall a g o, respects R (get_guide execution_strat a g o)) ->
  forall fuel first_run options current_alpha guide_stn,
    respects R (simulate_loop fuel execution_strat first_run options
                  current_alpha guide_stn).
Proof.
  intros Hquiet Hguide.
  assert (Hq : forall (A : Type) (m : M F A), respects quiet m -> respects R m).
  { intros A m Hm s. apply Hquiet, Hm. }
  induction fuel as [|fuel IH]; intros first_run options current_alpha guide_stn.
  - simpl. apply respects_lift; typeclasses eauto.
  - simpl.
    apply respects_bind; [typeclasses eauto | apply Hq, quiet_all_assigned |].
    intros [|].
    + apply respects_bind; [typeclasses eauto | apply Hq, quiet_trace_assignments |].
      intros _. apply respects_ret; typeclasses eauto.
    + apply respects_bind; [typeclasses eauto | apply Hguide |].
      intros ag.
      apply respects_bind; [typeclasses eauto | apply Hq, quiet_deref |].
      intros dispatch.
      apply respects_bind; [typeclasses eauto | |].
      { intros s. simpl. reflexivity. }
      intros selection.
      apply respects_bind; [typeclasses eauto | apply Hq, quiet_assign_guide |].
      intros guide'.
      apply respects_bind; [typeclasses eauto | apply Hq, quiet_assign_working |].
      intros _.
      apply respects_bind; [typeclasses eauto | apply Hq, quiet_assign_record |].
      intros _.
      apply respects_bind; [typeclasses eauto | apply Hq, quiet_self_stn |].
      intros w.
      destruct (negb (fst (propagate_constraints (copy w)))).
      * apply respects_bind; [typeclasses eauto | apply Hq, quiet_trace_assignments |].
        intros _. apply respects_ret; typeclasses eauto.
      * apply respects_bind; [typeclasses eauto | apply Hq, quiet_rebind_stn |].
        intros guide''.
        apply respects_bind; [typeclasses eauto | apply Hq, quiet_cleanup |].
        intros _.
        apply respects_bind; [typeclasses eauto | |].
        { apply Hq. intros s. unfold quiet. simpl. repeat split; eauto. }
        intros _. apply IH.
Qed.

(** ** The strategies and the counters *)

Lemma ar_bound_lift (previous_alpha threshold : F) :
  ar_bound previous_alpha threshold = lift (ar_outcome previous_alpha threshold).
Proof.
  unfold ar_bound, ar_outcome.
  destruct (ar_search 101 previous_alpha threshold 0 0) as [[n att]|]; reflexivity.
Qed.

#[local] Instance keeps_ledger_ok_preorder : PreOrder keeps_ledger_ok.
Proof.
  split.
  - intros s H. exact H.
  - intros a b c Hab Hbc H. apply Hbc, Hab, H.
Qed.

Lemma law_so_far_head (l : list event) :
  law_so_far l -> (sent_count l <= resched_count l)%nat.
Proof. destruct l; simpl; tauto. Qed.

Ltac unfold_steps :=
  unfold _srea_algorithm, _drea_algorithm, _drea_si_algorithm,
    _drea_alp_algorithm, _drea_ar_algorithm, _drea_ar_tail, _arsi_algorithm,
    _srea_wrapper, srea_call, self_stn, log_event, incr_num_reschedules,
    incr_num_sent_schedules, bind, ret, raise;
  rewrite ?ar_bound_lift;
  unfold lift.

Ltac ledger_cases :=
  repeat (simpl;
          match goal with
          | |- context [match ?x with _ => _ end] =>
              match x with
              | context [match _ with _ => _ end] => fail 1
              | _ => destruct x
              end
          end).

Lemma _srea_algorithm_law a g fr :
  respects keeps_ledger_ok (_srea_algorithm a g fr).
Proof.
  intros s (H1 & H2 & H3). pose proof (law_so_far_head _ H3) as H4.
  destruct s. simpl in *. unfold_steps. unfold ledger_ok.
  ledger_cases; simpl; repeat split; try assumption; try lia.
Qed.

Ltac ledger_law :=
  let s := fresh "s" in
  intros s (H1 & H2 & H3); pose proof (law_so_far_head _ H3);
  destruct s; simpl in *; unfold_steps; unfold ledger_ok;
  ledger_cases; simpl; repeat split; try assumption; try lia.

Lemma _drea_algorithm_law a g fr ec :
  respects keeps_ledger_ok (_drea_algorithm a g fr ec).
Proof. ledger_law. Qed.

Lemma _drea_si_algorithm_law a g fr ec thr :
  respects keeps_ledger_ok (_drea_si_algorithm a g fr ec thr).
Proof. ledger_law. Qed.

Lemma _drea_alp_algorithm_law a g fr ec thr :
  respects keeps_ledger_ok (_drea_alp_algorithm a g fr ec thr).
Proof. ledger_law. Qed.

Lemma _drea_ar_algorithm_law a g fr ec thr c :
  respects keeps_ledger_ok (_drea_ar_algorithm a g fr ec thr c).
Proof. ledger_law. Qed.

Lemma _arsi_algorithm_law a g fr ec c ar si :
  respects keeps_ledger_ok (_arsi_algorithm a g fr ec c ar si).
Proof. ledger_law. Qed.

Lemma quiet_keeps_ledger_ok (s s' : Simulator F) : quiet s s' -> keeps_ledger_ok s s'.
Proof.
  intros (Q1 & Q2 & Q3 & _) (H1 & H2 & H3).
  unfold ledger_ok. rewrite Q1, Q2, Q3. tauto.
Qed.

Lemma quiet_option_item (o : option F) : respects quiet (option_item o).
Proof. intros s. destruct o; simpl; reflexivity. Qed.

Lemma quiet_bump_ar_counter (ec : bool) : respects quiet (bump_ar_counter ec).
Proof.
  intros s. unfold bump_ar_counter.
  destruct ec; [|simpl; reflexivity].
  destruct (_ar_contingent_event_counter s); simpl; unfold quiet; simpl; repeat split; eauto.
Qed.

Lemma quiet_read_ar_counter : respects quiet read_ar_counter.
Proof.
  intros s. unfold read_ar_counter.
  destruct (_ar_contingent_event_counter s); simpl; reflexivity.
Qed.

Lemma quiet_store_ar_counter (c : nat) : respects quiet (store_ar_counter c).
Proof. intros s. unfold store_ar_counter, quiet. simpl. repeat split; eauto. Qed.

(** [get_guide] respects a preorder that its quiet steps and each of the
    six algorithms respect. *)
Lemma get_guide_respects (R : relation (Simulator F)) `{!PreOrder R} :
  (forall s s', quiet s s' -> R s s') ->
  (forall a g fr, respects R (_srea_algorithm a g fr)) ->
  (forall a g fr ec, respects R (_drea_algorithm a g fr ec)) ->
  (forall a g fr ec thr, respects R (_drea_si_algorithm a g fr ec thr)) ->
  (forall a g fr ec thr, respects R (_drea_alp_algorithm a g fr ec thr)) ->
  (forall a g fr ec thr c, respects R (_drea_ar_algorithm a g fr ec thr c)) ->
  (forall a g fr ec c ar si, respects R (_arsi_algorithm a g fr ec c ar si)) ->
  forall execution_strat a g o, respects R (get_guide execution_strat a g o).
Proof.
  intros Hquiet H1 H2 H3 H4 H5 H6 execution_strat a g o.
  assert (Hq : forall (A : Type) (m : M F A), respects quiet m -> respects R m).
  { intros A m Hm s. apply Hquiet, Hm. }
  unfold get_guide.
  repeat match goal with
         | |- context [if String.eqb ?x ?y then _ else _] =>
             destruct (String.eqb x y)
         end.
  - apply respects_ret; typeclasses eauto.
  - apply H1.
  - apply H2.
  - apply respects_bind; [typeclasses eauto | apply Hq, quiet_option_item |].
    intros si. apply H3.
  - apply respects_bind; [typeclasses eauto | apply Hq, quiet_option_item |].
    intros alp. apply H4.
  - apply respects_bind; [typeclasses eauto | apply Hq, quiet_bump_ar_counter |].
    intros _.
    apply respects_bind; [typeclasses eauto | apply Hq, quiet_option_item |].
    intros ar.
    apply respects_bind; [typeclasses eauto | apply Hq, quiet_read_ar_counter |].
    intros c.
    apply respects_bind; [typeclasses eauto | apply H5 |].
    intros ans.
    apply respects_bind; [typeclasses eauto | apply Hq, quiet_store_ar_counter |].
    intros _. apply respects_ret; typeclasses eauto.
  - apply respects_bind; [typeclasses eauto | apply Hq, quiet_bump_ar_counter |].
    intros _.
    apply respects_bind; [typeclasses eauto | apply Hq, quiet_read_ar_counter |].
    intros c.
    apply respects_bind; [typeclasses eauto | apply Hq, quiet_option_item |].
    intros ar.
    apply respects_bind; [typeclasses eauto | apply Hq, quiet_option_item |].
    intros si.
    apply respects_bind; [typeclasses eauto | apply H6 |].
    intros ans.
    apply respects_bind; [typeclasses eauto | apply Hq, quiet_store_ar_counter |].
    intros _. apply respects_ret; typeclasses eauto.
  - apply respects_raise; typeclasses eauto.
Qed.

Lemma get_guide_law execution_strat a g o :
  respects keeps_ledger_ok (get_guide execution_strat a g o).
Proof.
  apply get_guide_respects.
  - typeclasses eauto.
  - apply quiet_keeps_ledger_ok.
  - apply _srea_algorithm_law.
  - apply _drea_algorithm_law.
  - apply _drea_si_algorithm_law.
  - apply _drea_alp_algorithm_law.
  - apply _drea_ar_algorithm_law.
  - apply _arsi_algorithm_law.
Qed.

#[local] Instance same_rng_preorder : PreOrder same_rng.
Proof.
  split.
  - intros s. unfold same_rng. tauto.
  - intros a b c (H1 & H2) (K1 & K2). unfold same_rng. rewrite K1, K2. tauto.
Qed.

Ltac rng_frame :=
  let s := fresh "s" in
  intros s; destruct s; simpl in *; unfold_steps; unfold same_rng;
  ledger_cases; simpl; split; reflexivity.

Lemma get_guide_same_rng execution_strat a g o :
  respects same_rng (get_guide execution_strat a g o).
Proof.
  apply get_guide_respects.
  - typeclasses eauto.
  - intros s s' (_ & _ & _ & Q4 & Q5 & _). split; assumption.
  - intros; rng_frame.
  - intros; rng_frame.
  - intros; rng_frame.
  - intros; rng_frame.
  - intros; rng_frame.
  - intros; rng_frame.
Qed.

(** ** The run as a whole *)

Lemma simulate_unfold fuel starting_stn execution_strat sim_options s :
  simulate fuel starting_stn execution_strat sim_options s
  = bind resample_stored_stn
      (fun _ => simulate_loop fuel execution_strat true
                  {| first_run := true; executed_contingent := false;
                     thresholds := sim_options |} f0 GSelf)
      (setup starting_stn s).
Proof. reflexivity. Qed.

Lemma resample_stored_stn_quiet_but_rng (s : Simulator F) :
  num_reschedules (snd (resample_stored_stn s)) = num_reschedules s
  /\ num_sent_schedules (snd (resample_stored_stn s)) = num_sent_schedules s
  /\ run_log (snd (resample_stored_stn s)) = run_log s
  /\ (is_Some (stn s) -> is_Some (stn (snd (resample_stored_stn s)))).
Proof.
  unfold resample_stored_stn. destruct (stn s) as [w|] eqn:E; simpl.
  - destruct (resample_edges (contingent_edges w) (_rand_state s)); simpl.
    repeat split; eauto.
  - rewrite E. tauto.
Qed.

(** A property of the counters, the log and the presence of a working STN
    that holds after the setup and that [get_guide] keeps holds after the
    run, however long it is followed. *)
Lemma simulate_ledger_invariant (P : Simulator F -> Prop) (execution_strat : string) :
  (forall s s', num_reschedules s' = num_reschedules s ->
                num_sent_schedules s' = num_sent_schedules s ->
                run_log s' = run_log s ->
                (is_Some (stn s) -> is_Some (stn s')) -> P s -> P s') ->
  (forall a g o s, P s -> P (snd (get_guide execution_strat a g o s))) ->
  forall fuel starting_stn sim_options s,
    P (setup starting_stn s) ->
    P (snd (simulate fuel starting_stn execution_strat sim_options s)).
Proof.
  intros Hframe Hguide fuel starting_stn sim_options s H0.
  set (R := fun a b : Simulator F => P a -> P b).
  assert (HR : PreOrder R).
  { split; [intros a H; exact H | intros a b c Hab Hbc H; apply Hbc, Hab, H]. }
  rewrite simulate_unfold.
  assert (Hall : respects R
            (bind resample_stored_stn
               (fun _ => simulate_loop fuel execution_strat true
                  {| first_run := true; executed_contingent := false;
                     thresholds := sim_options |} f0 GSelf))).
  { apply respects_bind; [exact HR | |].
    - intros x Hx.
      destruct (resample_stored_stn_quiet_but_rng x) as (E1 & E2 & E3 & E4).
      exact (Hframe _ _ E1 E2 E3 E4 Hx).
    - intros _. apply simulate_loop_respects; [exact HR | |].
      + intros a b (Q1 & Q2 & Q3 & _ & _ & Q6) Ha.
        exact (Hframe _ _ Q1 Q2 Q3 Q6 Ha).
      + intros a g o x Hx. apply Hguide, Hx. }
  apply Hall, H0.
Qed.

(** C7. However long a run is followed, under every strategy and from every
    state of the simulator: the counters are the numbers of increments made
    since the setup, and at every moment since then (every suffix of the
    log, the newest event being first) the schedules sent were at most the
    reschedules; in particular at the end. *)
Theorem counter_law_always fuel starting_stn execution_strat sim_options
    (s : Simulator F) :
  let s' := snd (simulate fuel starting_stn execution_strat sim_options s) in
  (forall past, past `suffix_of` run_log s' ->
                (sent_count past <= resched_count past)%nat)
  /\ num_reschedules s' = resched_count (run_log s')
  /\ num_sent_schedules s' = sent_count (run_log s')
  /\ (num_sent_schedules s' <= num_reschedules s')%nat.
Proof.
  intros s'.
  assert (H : ledger_ok s').
  { subst s'. apply simulate_ledger_invariant.
    - intros a b E1 E2 E3 _ (H1 & H2 & H3). unfold ledger_ok.
      rewrite E1, E2, E3. tauto.
    - intros a g o x Hx. exact (get_guide_law execution_strat a g o x Hx).
    - unfold ledger_ok. simpl. repeat split; lia. }
  destruct H as (H1 & H2 & H3).
  split; [|split; [|split]].
  - intros past Hpast. exact (law_so_far_suffix _ _ H3 Hpast).
  - exact H1.
  - exact H2.
  - rewrite H1, H2. apply law_so_far_head, H3.
Qed.

(** C4. Under [early], [get_guide] returns alpha [1.0] and the working STN
    itself (the very object [self.stn]) and changes nothing; and however
    long a run under [early] is followed, the log is empty (the solver was
    not called, no counter was incremented) and both counters are zero. *)
Theorem early_strategy_identity :
  (forall (a : F) (g : guide_ref F) (o : Options F) (s : Simulator F),
      get_guide "early" a g o s = (Ret (f1, GSelf), s))
  /\ (forall fuel (starting_stn : STN F) (sim_options : SimOptions F)
             (s : Simulator F),
        let s' := snd (simulate fuel starting_stn "early" sim_options s) in
        run_log s' = [] /\ srea_count (run_log s') = 0%nat
        /\ num_reschedules s' = 0%nat /\ num_sent_schedules s' = 0%nat).
Proof.
  split.
  - intros a g o s. reflexivity.
  - intros fuel starting_stn sim_options s s'.
    assert (H : run_log s' = [] /\ num_reschedules s' = 0%nat
                /\ num_sent_schedules s' = 0%nat).
    { subst s'.
      apply (simulate_ledger_invariant
               (fun x => run_log x = [] /\ num_reschedules x = 0%nat
                         /\ num_sent_schedules x = 0%nat)).
      - intros a b E1 E2 E3 _. rewrite E1, E2, E3. tauto.
      - intros a g o x Hx. exact Hx.
      - simpl. tauto. }
    destruct H as (H1 & H2 & H3). rewrite H1. simpl. tauto.
Qed.

(** ** Determinism *)

Lemma resample_stored_stn_rng (starting_stn : STN F) (s : Simulator F) :
  _rand_state (snd (resample_stored_stn (setup starting_stn s)))
  = snd (resample_edges (contingent_edges starting_stn) (_rand_state s))
  /\ _rand_seed (snd (resample_stored_stn (setup starting_stn s))) = _rand_seed s.
Proof.
  unfold resample_stored_stn. simpl. unfold copy.
  destruct (resample_edges (contingent_edges starting_stn) (_rand_state s)); simpl.
  tauto.
Qed.

Lemma simulate_rng fuel starting_stn execution_strat sim_options (s : Simulator F) :
  _rand_state (snd (simulate fuel starting_stn execution_strat sim_options s))
  = snd (resample_edges (contingent_edges starting_stn) (_rand_state s)).
Proof.
  rewrite simulate_unfold. unfold bind.
  destruct (resample_stored_stn_rng starting_stn s) as [E _].
  destruct (resample_stored_stn (setup starting_stn s)) as [[u|e|] s1] eqn:Er;
    simpl in *; try exact E.
  rewrite <- E.
  apply (simulate_loop_respects same_rng execution_strat).
  - intros a b (_ & _ & _ & Q4 & Q5 & _). split; assumption.
  - intros a g o. apply get_guide_same_rng.
Qed.

Lemma setup_reads_only_rng (starting_stn : STN F) (s1 s2 : Simulator F) :
  _rand_seed s1 = _rand_seed s2 -> _rand_state s1 = _rand_state s2 ->
  setup starting_stn s1 = setup starting_stn s2.
Proof. intros E1 E2. unfold setup. rewrite E1, E2. reflexivity. Qed.

(** C8. Two simulators constructed with the same integer seed are the same
    simulator.  Two simulators that agree on the seed and on the random
    state (as those two do), whatever else they hold from earlier runs,
    given the same STN, strategy and options: the runs, followed equally
    long, end with the same outcome and the same state, hence the same
    counters and the same assigned times.  And the random state a run
    leaves is the one left by the resampling of the contingent edges:
    nothing else draws from it. *)
Theorem simulate_deterministic :
  (forall (seed : Z) (e1 e2 : RandomState),
      __init__ (Some seed) e1 = __init__ (Some seed) e2)
  /\ (forall fuel (starting_stn : STN F) (execution_strat : string)
             (sim_options : SimOptions F) (s1 s2 : Simulator F),
        _rand_seed s1 = _rand_seed s2 ->
        _rand_state s1 = _rand_state s2 ->
        let r1 := simulate fuel starting_stn execution_strat sim_options s1 in
        let r2 := simulate fuel starting_stn execution_strat sim_options s2 in
        fst r1 = fst r2
        /\ get_assigned_times (snd r1) = get_assigned_times (snd r2)
        /\ num_reschedules (snd r1) = num_reschedules (snd r2)
        /\ num_sent_schedules (snd r1) = num_sent_schedules (snd r2)
        /\ snd r1 = snd r2
        /\ _rand_state (snd r1)
           = snd (resample_edges (contingent_edges starting_stn) (_rand_state s1))).
Proof.
  split; [reflexivity|].
  intros fuel starting_stn execution_strat sim_options s1 s2 E1 E2 r1 r2.
  assert (E : r1 = r2).
  { subst r1 r2. rewrite !simulate_unfold.
    rewrite (setup_reads_only_rng starting_stn s1 s2 E1 E2). reflexivity. }
  rewrite E. repeat split. rewrite <- E. subst r1. apply simulate_rng.
Qed.

(** ** Unknown strategies *)

Lemma get_guide_unknown (execution_strat : string) a g o (s : Simulator F) :
  execution_strat ∉ accepted_strategies ->
  get_guide execution_strat a g o s = (Raise ValueError, s).
Proof.
  intros Hn. unfold accepted_strategies in Hn.
  repeat (apply not_elem_of_cons in Hn; destruct Hn as [?%String.eqb_neq Hn]).
  unfold get_guide.
  repeat match goal with
         | H : String.eqb _ _ = false |- _ => rewrite H; clear H
         end.
  reflexivity.
Qed.

Lemma resample_stored_stn_setup (starting_stn : STN F) (s : Simulator F) :
  exists es s1,
    resample_stored_stn (setup starting_stn s) = (Ret tt, s1)
    /\ stn s1 = Some {| verts := verts starting_stn; edges := edges starting_stn;
                        contingent_edges := es;
                        received_timepoints := received_timepoints starting_stn |}
    /\ assignment_stn s1 = Some starting_stn.
Proof.
  unfold resample_stored_stn. simpl. unfold copy.
  destruct (resample_edges (contingent_edges starting_stn) (_rand_state s))
    as [es rs].
  eexists es, _. split; [reflexivity|]. simpl. split; reflexivity.
Qed.

Lemma all_assigned_eq (s : Simulator F) (w : STN F) :
  stn s = Some w ->
  all_assigned s = (Ret (forallb is_executed (get_all_verts w)), s).
Proof.
  intros Hw. unfold all_assigned, bind, self_stn, ret. rewrite Hw. reflexivity.
Qed.

Lemma simulate_unknown_eq fuel (starting_stn : STN F)
    (execution_strat : string) (sim_options : SimOptions F) (s : Simulator F) :
  execution_strat ∉ accepted_strategies ->
  simulate (S fuel) starting_stn execution_strat sim_options s
  = (if forallb is_executed (get_all_verts starting_stn)
     then Ret true else Raise ValueError,
     snd (resample_stored_stn (setup starting_stn s))).
Proof.
  intros Hn. rewrite simulate_unfold.
  destruct (resample_stored_stn_setup starting_stn s) as (es & s1 & Er & Hw & Ha).
  unfold bind at 1. rewrite Er. cbn [simulate_loop snd].
  unfold bind at 1. rewrite (all_assigned_eq _ _ Hw).
  unfold get_all_verts. cbn [verts].
  destruct (forallb is_executed (map snd (verts starting_stn))).
  - unfold bind, trace_assignments, get_assigned_times, ret.
    rewrite Ha. reflexivity.
  - unfold bind at 1. rewrite get_guide_unknown by exact Hn. reflexivity.
Qed.

(** C3, as the code has it.  With a strategy that is none of the seven
    literals: if the starting STN has a timepoint that is not executed, the
    run raises [ValueError] in its first iteration, from [get_guide], after
    the setup and the resampling and before any timepoint is selected or
    assigned (the state is the one the resampling left); if it has none,
    the body of the loop is never entered and the run returns [True]. *)
Theorem unknown_strategy_raises_in_first_iteration fuel (starting_stn : STN F)
    (execution_strat : string) (sim_options : SimOptions F) (s : Simulator F) :
  execution_strat ∉ accepted_strategies ->
  let r := simulate (S fuel) starting_stn execution_strat sim_options s in
  (forallb is_executed (get_all_verts starting_stn) = false ->
     fst r = Raise ValueError
     /\ snd r = snd (resample_stored_stn (setup starting_stn s)))
  /\ (forallb is_executed (get_all_verts starting_stn) = true ->
        fst r = Ret true).
Proof.
  intros Hn r. subst r. rewrite (simulate_unknown_eq _ _ _ _ _ Hn). simpl.
  split; intros Hv; rewrite Hv; [split|]; reflexivity.
Qed.

(** ** The stochastic-improvement test *)

Lemma remaining_contingent_loop_count (g : STN F) (l : list Z) (n : nat) :
  Forall (fun i => is_Some (get_vertex g i)) l ->
  remaining_contingent_loop g l n
  = Ret (n + length (List.filter (fun i => match get_vertex g i with
                                           | Some vert => negb (is_executed vert)
                                           | None => false
                                           end) l))%nat.
Proof.
  intros Hl. revert n. induction Hl as [|i l [x Hx] Hl IH]; intros n; simpl.
  - f_equal. lia.
  - rewrite Hx. destruct (negb (is_executed x)); simpl; rewrite IH; f_equal; lia.
Qed.

Lemma remaining_contingent_count_eq (g : STN F) :
  Forall (fun i => is_Some (get_vertex g i)) (received_timepoints g) ->
  remaining_contingent_count g = Ret (unexecuted_received g).
Proof.
  intros Hl. unfold remaining_contingent_count, unexecuted_received.
  rewrite (remaining_contingent_loop_count g _ 0 Hl). reflexivity.
Qed.

Lemma get_guide_drea_si a g (o : Options F) :
  get_guide "drea-si" a g o
  = bind (option_item (opt_si_threshold (thresholds o)))
      (fun si => _drea_si_algorithm a g (first_run o) (executed_contingent o) si).
Proof. reflexivity. Qed.


(** ** The allowable-risk test *)




(** ** Counting calls and adoptions *)

#[local] Instance keeps_calls_counted_preorder : PreOrder keeps_calls_counted.
Proof.
  split.
  - intros s H. exact H.
  - intros a b c Hab Hbc H. apply Hbc, Hab, H.
Qed.

Ltac calls_counted Hfeas :=
  let s := fresh "s" in
  let st := fresh "st" in
  let w := fresh "w" in
  let Hs := fresh "Hs" in
  let Hsome := fresh "Hsome" in
  let Hc := fresh "Hc" in
  intros s; unfold keeps_calls_counted, calls_counted;
  destruct s as [st ? ? ? ? ? ? ? ?]; simpl;
  intros [Hsome Hc];
  destruct st as [w|]; [|destruct Hsome; discriminate];
  destruct (Hfeas w) as [[? ?] Hs];
  unfold_steps; simpl;
  repeat (simpl; rewrite ?Hs;
          match goal with
          | |- context [match ?x with _ => _ end] =>
              match x with
              | context [match _ with _ => _ end] => fail 1
              | _ => destruct x
              end
          end);
  simpl; rewrite ?Hs; simpl; (split; [eauto | lia]).

Lemma get_guide_calls_counted :
  (forall w, is_Some (srea w)) ->
  forall execution_strat a g o,
    respects keeps_calls_counted (get_guide execution_strat a g o).
Proof.
  intros Hfeas. apply get_guide_respects.
  - typeclasses eauto.
  - intros s s' (Q1 & _ & Q3 & _ & _ & Q6) [H1 H2]. split; [auto|].
    rewrite Q1, Q3. exact H2.
  - intros a g fr. calls_counted Hfeas.
  - intros a g fr ec. calls_counted Hfeas.
  - intros a g fr ec thr. calls_counted Hfeas.
  - intros a g fr ec thr. calls_counted Hfeas.
  - intros a g fr ec thr c. calls_counted Hfeas.
  - intros a g fr ec c ar si. calls_counted Hfeas.
Qed.

(** C2, as the code has it.  With a solver that finds every network
    feasible: however long a run is followed, under every strategy,
    [num_reschedules] is the number of calls of the solver made since the
    setup; and in a step that is not the first, [num_sent_schedules] goes
    up by one or stays, it goes up only when the answer of the solver is
    the guide returned, and it does go up whenever that answer is returned
    and differs from the previous alpha and guide. *)
Theorem counters_on_feasible_calls :
  (forall w, is_Some (srea w)) ->
  (forall fuel (starting_stn : STN F) (execution_strat : string)
          (sim_options : SimOptions F) (s : Simulator F),
      let s' := snd (simulate fuel starting_stn execution_strat sim_options s) in
      num_reschedules s' = srea_count (run_log s'))
  /\ (forall (execution_strat : string) (a : F) (g : guide_ref F)
             (o : Options F) (s : Simulator F) (w : STN F)
             (a' : F) (g' : STN F),
        stn s = Some w -> srea w = Some (a', g') -> first_run o = false ->
        let r := get_guide execution_strat a g o s in
        (num_sent_schedules (snd r) = num_sent_schedules s
         \/ num_sent_schedules (snd r) = S (num_sent_schedules s))
        /\ (num_sent_schedules (snd r) = S (num_sent_schedules s) ->
              fst r = Ret (a', GObj g'))
        /\ (fst r = Ret (a', GObj g') -> (a', GObj g') <> (a, g) ->
              num_sent_schedules (snd r) = S (num_sent_schedules s))).
Proof.
  intros Hfeas. split.
  - intros fuel starting_stn execution_strat sim_options s s'. subst s'.
    refine (proj2 (simulate_ledger_invariant calls_counted execution_strat
                     _ _ fuel starting_stn sim_options s _)).
    + intros x y E1 _ E3 E4 [H1 H2]. split; [auto|]. rewrite E1, E3. exact H2.
    + intros a g o x Hx. exact (get_guide_calls_counted Hfeas _ a g o x Hx).
    + split; [eexists; reflexivity | reflexivity].
  - intros execution_strat a g o s w a' g' Hw Hs Hfr r. subst r.
    destruct o as [fr ec [si ar alp]]. simpl in Hfr. subst fr.
    destruct s as [st ? ? ? ? ? ? arc ?]. simpl in Hw. subst st.
    unfold get_guide.
    repeat match goal with
           | |- context [if String.eqb ?x ?y then _ else _] =>
               destruct (String.eqb x y)
           end;
      unfold option_item, bump_ar_counter, read_ar_counter, store_ar_counter,
        set_ar_counter;
      unfold_steps; simpl;
      repeat (simpl; rewrite ?Hs, ?ar_bound_lift; unfold lift;
              match goal with
              | |- context [match ?x with _ => _ end] =>
                  match x with
                  | context [match _ with _ => _ end] => fail 1
                  | _ => destruct x
                  end
              end);
      simpl; rewrite ?Hs; simpl;
      (split; [|split]);
      intros;
      first [reflexivity | lia | congruence
            | left; reflexivity | right; reflexivity].
Qed.

(** ** A selection that finds no timepoint *)

(** An iteration in which timepoints are left, the guide is obtained and
    [select_next_timepoint] returns the null vertex ends in an exception:
    the driver has no test for the null vertex and hands it to
    [assign_timepoint]. *)
Lemma null_selection_iteration fuel (execution_strat : string)
    (first_run : bool) (o : Options F) (a : F) (g : guide_ref F)
    (s s1 : Simulator F) (ag : F * guide_ref F) (d : STN F) (t : F) (c : bool) :
  all_assigned s = (Ret false, s) ->
  get_guide execution_strat a g
    {| montsim.first_run := first_run;
       executed_contingent := executed_contingent o;
       thresholds := thresholds o |} s = (Ret ag, s1) ->
  deref (snd ag) s1 = (Ret d, s1) ->
  select_next_timepoint (stn s1) d (_current_time s1) = Ret (None, t, c) ->
  fst (simulate_loop (S fuel) execution_strat first_run o a g s)
  = Raise AttributeError.
Proof.
  intros Hall Hguide Hderef Hsel.
  cbn [simulate_loop]. unfold bind at 1. rewrite Hall.
  unfold bind at 1. rewrite Hguide.
  unfold bind at 1. rewrite Hderef.
  unfold bind at 1. rewrite Hsel. cbn [fst snd].
  unfold bind at 1. unfold assign_guide.
  destruct (snd ag) as [|x].
  - simpl in Hderef. unfold self_stn in Hderef.
    destruct (stn s1) as [w|]; [|discriminate Hderef].
    reflexivity.
  - reflexivity.
Qed.

End Properties.

(** * Runs on concrete networks *)

Import examples.

Lemma foo_not_accepted : "foo"%string ∉ accepted_strategies.
Proof.
  unfold accepted_strategies. intros H.
  repeat (apply elem_of_cons in H; destruct H as [H|H]; [discriminate H|]).
  inversion H.
Qed.

Lemma assign_timepoint_effect_witness :
  edges (snd (assign_timepoint stn_trivial (Some 1) (Fin 3))) !! (Z_NODE_ID, 1)
  = Some (Fin 3)
  /\ is_executed <$> get_vertex (snd (assign_timepoint stn_trivial (Some 1) (Fin 3))) 1
     = Some true.
Proof.
  pose proof (assign_timepoint_effect stn_trivial 1 (Fin 3)) as H.
  cbv zeta in H. destruct H as (H1 & _ & H3 & _).
  split.
  - apply H1. discriminate.
  - apply H3. eexists. reflexivity.
Defined.

Lemma counter_law_always_witness :
  (sent_count [EvSrea] <= resched_count [EvSrea])%nat
  /\ (num_sent_schedules
        (snd (run half_risk 10 stn_cont "drea-si" (all_options (Fin 0) (Fin 0) (Fin 0))))
      <= num_reschedules
           (snd (run half_risk 10 stn_cont "drea-si" (all_options (Fin 0) (Fin 0) (Fin 0)))))%nat.
Proof.
  pose proof (counter_law_always (Collaborators0 := ex_collaborators half_risk) 10 stn_cont
                "drea-si" (all_options (Fin 0) (Fin 0) (Fin 0)) (fresh half_risk))
    as H.
  cbv zeta in H. destruct H as (H1 & _ & _ & H4).
  split.
  - apply H1. exists [EvSent; EvResched]. vm_compute. reflexivity.
  - exact H4.
Defined.

Lemma simulate_deterministic_witness :
  fst (simulate 10 stn_cont "drea" no_options (fresh half_risk))
  = fst (simulate 10 stn_cont "drea" no_options
           (snd (run half_risk 10 stn_trivial "srea" no_options))).
Proof.
  refine (proj1 (proj2 (simulate_deterministic
                          (Collaborators0 := ex_collaborators half_risk)) 10%nat
                   stn_cont "drea"%string no_options (fresh half_risk)
                   (snd (run half_risk 10 stn_trivial "srea" no_options)) _ _)).
  - vm_compute. reflexivity.
  - vm_compute. reflexivity.
Defined.

Lemma unknown_strategy_raises_in_first_iteration_witness :
  fst (run infeasible 5 stn_trivial "foo" no_options) = Raise ValueError
  /\ fst (run infeasible 5 stn_empty "foo" no_options) = Ret true.
Proof.
  split.
  - refine (proj1 (proj1 (unknown_strategy_raises_in_first_iteration
                            (Collaborators0 := ex_collaborators infeasible) 4 stn_trivial "foo"
                            no_options (fresh infeasible) foo_not_accepted) _)).
    vm_compute. reflexivity.
  - refine (proj2 (unknown_strategy_raises_in_first_iteration
                     (Collaborators0 := ex_collaborators infeasible) 4 stn_empty "foo"
                     no_options (fresh infeasible) foo_not_accepted) _).
    vm_compute. reflexivity.
Defined.

(** C3 as stated fails: with no timepoint to dispatch, a strategy that is
    none of the seven literals raises nothing and the run returns [True]. *)
Lemma unknown_strategy_can_return_true :
  ("foo"%string ∉ accepted_strategies)
  /\ fst (run infeasible 5 stn_empty "foo" no_options) = Ret true
  /\ fst (run infeasible 5 stn_empty "foo" no_options) <> Raise ValueError.
Proof.
  split; [exact foo_not_accepted|].
  split; [vm_compute; reflexivity | vm_compute; discriminate].
Qed.




(** C1 on [stn_mutual] under [early].  After the first iteration (Z is
    dispatched) two timepoints are left, neither enabled:
    [select_next_timepoint] returns the null vertex; the second iteration
    then raises, it does not return [False]. *)
Theorem null_selection_raises :
  all_assigned (snd (run infeasible 1 stn_mutual "early" no_options))
  = (Ret false, snd (run infeasible 1 stn_mutual "early" no_options))
  /\ selection_on_working (snd (run infeasible 1 stn_mutual "early" no_options))
     = Ret (None, PInf, false)
  /\ fst (run infeasible 2 stn_mutual "early" no_options) = Raise AttributeError
  /\ fst (run infeasible 2 stn_mutual "early" no_options) <> Ret false.
Proof.
  split; [vm_compute; reflexivity|].
  split; [vm_compute; reflexivity|].
  split; [vm_compute; reflexivity | vm_compute; discriminate].
Qed.

(** C2 as stated fails, on [stn_trivial].  Under [drea-ar] with an
    infeasible network the solver is called once and [num_reschedules]
    stays at zero.  Under [drea-alp] with a feasible one the first guide is
    adopted and [num_sent_schedules] stays at zero.  Under [srea] with an
    infeasible network no guide is adopted and [num_sent_schedules] is
    one. *)
Lemma counters_miss_calls_and_adoptions :
  (fst (run infeasible 10 stn_trivial "drea-ar" (all_options (Fin 0) (Fin (1 # 2)) (Fin 0)))
   = Ret true
   /\ srea_count (run_log (snd (run infeasible 10 stn_trivial "drea-ar"
                                  (all_options (Fin 0) (Fin (1 # 2)) (Fin 0))))) = 1%nat
   /\ num_reschedules (snd (run infeasible 10 stn_trivial "drea-ar"
                              (all_options (Fin 0) (Fin (1 # 2)) (Fin 0)))) = 0%nat)
  /\ (fst (get_guide "drea-alp" (Fin 0) GSelf
             (at_first (all_options (Fin 0) (Fin 0) (Fin 0)))
             (ready half_risk stn_trivial))
      = Ret (Fin (1 # 2), GObj stn_trivial)
      /\ num_sent_schedules
           (snd (get_guide "drea-alp" (Fin 0) GSelf
                   (at_first (all_options (Fin 0) (Fin 0) (Fin 0)))
                   (ready half_risk stn_trivial))) = 0%nat
      /\ num_sent_schedules
           (snd (run half_risk 10 stn_trivial "drea-alp"
                   (all_options (Fin 0) (Fin 0) (Fin 0)))) = 0%nat)
  /\ (fst (get_guide "srea" (Fin 0) GSelf (at_first no_options)
             (ready infeasible stn_trivial))
      = Ret (Fin 0, GSelf)
      /\ num_sent_schedules
           (snd (get_guide "srea" (Fin 0) GSelf (at_first no_options)
                   (ready infeasible stn_trivial))) = 1%nat).
Proof.
  repeat split; vm_compute; reflexivity.
Qed.

Lemma half_risk_feasible : forall w, is_Some (half_risk w).
Proof. intros w. eexists. reflexivity. Qed.

Lemma counters_on_feasible_calls_witness :
  num_reschedules (snd (run half_risk 10 stn_cont "arsi"
                          (all_options (Fin 0) (Fin 0) (Fin 0))))
  = srea_count (run_log (snd (run half_risk 10 stn_cont "arsi"
                                (all_options (Fin 0) (Fin 0) (Fin 0)))))
  /\ num_sent_schedules
       (snd (get_guide "drea-si" (Fin 1) GSelf
               (after_contingent (all_options (Fin 0) (Fin 0) (Fin 0)))
               (ready half_risk stn_cont)))
     = S (num_sent_schedules (ready half_risk stn_cont)).
Proof.
  destruct (counters_on_feasible_calls (Collaborators0 := ex_collaborators half_risk)
              half_risk_feasible) as [H1 H2].
  split.
  - apply H1.
  - refine (proj2 (proj2 (H2 "drea-si"%string (Fin 1) GSelf
                            (after_contingent (all_options (Fin 0) (Fin 0) (Fin 0)))
                            (ready half_risk stn_cont) stn_cont (Fin (1 # 2)) stn_cont
                            eq_refl eq_refl eq_refl)) _ _).
    + vm_compute. reflexivity.
    + discriminate.
Defined.

(** * Further properties of the simulator *)

Section Further.
Context {F : Type} `{!Float F} `{!Collaborators F}.

(** ** The loop, one iteration at a time *)

Lemma simulate_loop_step fuel (execution_strat : string) (fr : bool)
    (options : Options F) (a : F) (g : guide_ref F) :
  simulate_loop (S fuel) execution_strat fr options a g
  = bind all_assigned
      (fun assigned =>
         if assigned then bind trace_assignments (fun _ => ret true)
         else
           bind (get_guide execution_strat a g
                   {| first_run := fr;
                      executed_contingent := executed_contingent options;
                      thresholds := thresholds options |})
                (after_guide fuel execution_strat
                   {| first_run := fr;
                      executed_contingent := executed_contingent options;
                      thresholds := thresholds options |})).
Proof. reflexivity. Qed.

#[local] Existing Instance quiet_preorder.

#[local] Instance calm_preorder : PreOrder calm.
Proof.
  split.
  - intros s. split; [reflexivity|]. split; reflexivity.
  - intros a b c (H1 & H2 & H3) (K1 & K2 & K3).
    split; [etransitivity; eassumption|].
    split; [rewrite K2; exact H2 | unfold same_record_keys in *; rewrite K3; exact H3].
Qed.

#[local] Instance same_ledger_preorder : PreOrder same_ledger.
Proof.
  split.
  - intros s. unfold same_ledger. tauto.
  - intros a b c (H1 & H2 & H3) (K1 & K2 & K3).
    unfold same_ledger. rewrite K1, K2, K3. tauto.
Qed.

#[local] Instance same_sent_preorder : PreOrder same_sent.
Proof.
  split.
  - intros s. reflexivity.
  - intros a b c H K. unfold same_sent in *. rewrite K. exact H.
Qed.

#[local] Instance same_record_keys_preorder : PreOrder same_record_keys.
Proof.
  split.
  - intros s. reflexivity.
  - intros a b c H K. unfold same_record_keys in *. rewrite K. exact H.
Qed.

Lemma calm_of_quiet {A : Type} (m : M F A) :
  respects quiet m ->
  (forall s, _ar_contingent_event_counter (snd (m s)) = _ar_contingent_event_counter s
             /\ assignment_stn (snd (m s)) = assignment_stn s) ->
  respects calm m.
Proof.
  intros Hq Hk s. destruct (Hk s) as [K1 K2].
  split; [apply Hq|]. split; [exact K1|].
  unfold record_keys. rewrite K2. reflexivity.
Qed.

Lemma calm_self_stn : respects calm self_stn.
Proof.
  apply calm_of_quiet; [apply quiet_self_stn|].
  intros s. unfold self_stn. destruct (stn s); simpl; tauto.
Qed.

Lemma calm_all_assigned : respects calm all_assigned.
Proof.
  apply respects_bind; [typeclasses eauto | apply calm_self_stn |].
  intros w. apply respects_ret; typeclasses eauto.
Qed.

Lemma calm_trace_assignments : respects calm trace_assignments.
Proof.
  apply calm_of_quiet; [apply quiet_trace_assignments|].
  intros s. unfold trace_assignments. destruct (get_assigned_times s); simpl; tauto.
Qed.

Lemma calm_deref (g : guide_ref F) : respects calm (deref g).
Proof.
  destruct g; simpl; [apply calm_self_stn | apply respects_ret; typeclasses eauto].
Qed.

Lemma calm_assign_guide (g : guide_ref F) (v : option Z) (t : F) :
  respects calm (assign_guide g v t).
Proof.
  apply calm_of_quiet; [apply quiet_assign_guide|].
  intros s. unfold assign_guide. destruct g as [|x].
  - destruct (stn s) as [w|]; [|simpl; tauto].
    destruct (assign_timepoint w v t) as [[?|?|] w']; simpl; tauto.
  - destruct (assign_timepoint x v t) as [[?|?|] x']; simpl; tauto.
Qed.

Lemma calm_assign_working (v : option Z) (t : F) : respects calm (assign_working v t).
Proof.
  apply calm_of_quiet; [apply quiet_assign_working|].
  intros s. unfold assign_working. destruct (stn s) as [w|]; [|simpl; tauto].
  destruct (assign_timepoint w v t) as [r w']; simpl; tauto.
Qed.

Lemma assign_timepoint_keys (s : STN F) (v : option Z) (t : F) :
  map fst (verts (snd (assign_timepoint s v t))) = map fst (verts s).
Proof.
  unfold assign_timepoint. destruct v as [v|]; [|reflexivity].
  set (s1 := if negb (Z.eqb v Z_NODE_ID)
             then update_edge (update_edge s Z_NODE_ID v t true true)
                    v Z_NODE_ID (fneg t) true true
             else s).
  assert (Hverts : verts s1 = verts s).
  { subst s1. destruct (negb (Z.eqb v Z_NODE_ID)); reflexivity. }
  destruct (get_vertex s1 v); simpl; rewrite Hverts; [|reflexivity].
  rewrite map_map. apply map_ext. intros [k x]. simpl.
  destruct (Z.eqb k v); reflexivity.
Qed.

Lemma calm_assign_record (v : option Z) (t : F) : respects calm (assign_record v t).
Proof.
  intros s. split; [apply quiet_assign_record|].
  unfold assign_record, record_keys.
  destruct (assignment_stn s) as [a|] eqn:E; [|simpl; rewrite E; tauto].
  pose proof (assign_timepoint_keys a v t) as Hk.
  destruct (assign_timepoint a v t) as [r a']; simpl in *.
  rewrite Hk. tauto.
Qed.

Lemma calm_rebind_stn (c : STN F) (g : guide_ref F) : respects calm (rebind_stn c g).
Proof.
  apply calm_of_quiet; [apply quiet_rebind_stn|].
  intros s. unfold rebind_stn. simpl. tauto.
Qed.

Lemma calm_cleanup : respects calm cleanup.
Proof.
  apply calm_of_quiet; [apply quiet_cleanup|].
  intros s. unfold cleanup. destruct (stn s) as [w|]; [|simpl; tauto].
  destruct (remove_old_timepoints w) as [r w']; simpl; tauto.
Qed.

Lemma calm_set_current_time (t : F) :
  respects calm (fun s : Simulator F => (Ret tt, set_current_time t s)).
Proof.
  apply calm_of_quiet.
  - intros s. unfold quiet. simpl. repeat split; eauto.
  - intros s. split; reflexivity.
Qed.

(** The loop respects a preorder that the calm steps respect and that
    [get_guide] respects on the options the loop gives it: the thresholds
    [th] throughout, and [first_run] set at most in the first iteration, and
    only when the loop is entered with it set. *)
Lemma simulate_loop_respects_options (R : relation (Simulator F)) `{!PreOrder R}
    (execution_strat : string) (th : SimOptions F) (fr0 : bool) :
  (forall s s', calm s s' -> R s s') ->
  (forall fr a g ec, (fr = true -> fr0 = true) ->
     respects R (get_guide execution_strat a g
                   {| first_run := fr; executed_contingent := ec;
                      thresholds := th |})) ->
  forall fuel,
    (forall fr options a g,
        (fr = true -> fr0 = true) ->
        thresholds options = th ->
        respects R (simulate_loop fuel execution_strat fr options a g))
    /\ (forall options ag,
          thresholds options = th ->
          respects R (after_guide fuel execution_strat options ag)).
Proof.
  intros Hcalm Hguide.
  assert (Hq : forall (A : Type) (m : M F A), respects calm m -> respects R m).
  { intros A m Hm s. apply Hcalm, Hm. }
  assert (Hafter : forall fuel,
            (forall options a g, thresholds options = th ->
               respects R (simulate_loop fuel execution_strat false options a g)) ->
            forall options ag, thresholds options = th ->
              respects R (after_guide fuel execution_strat options ag)).
  { intros fuel IH options ag Hth. unfold after_guide.
    apply respects_bind; [typeclasses eauto | apply Hq, calm_deref |].
    intros dispatch.
    apply respects_bind; [typeclasses eauto | |].
    { intros s. simpl. reflexivity. }
    intros selection.
    apply respects_bind; [typeclasses eauto | apply Hq, calm_assign_guide |].
    intros guide'.
    apply respects_bind; [typeclasses eauto | apply Hq, calm_assign_working |].
    intros _.
    apply respects_bind; [typeclasses eauto | apply Hq, calm_assign_record |].
    intros _.
    apply respects_bind; [typeclasses eauto | apply Hq, calm_self_stn |].
    intros w.
    destruct (negb (fst (propagate_constraints (copy w)))).
    - apply respects_bind; [typeclasses eauto | apply Hq, calm_trace_assignments |].
      intros _. apply respects_ret; typeclasses eauto.
    - apply respects_bind; [typeclasses eauto | apply Hq, calm_rebind_stn |].
      intros guide''.
      apply respects_bind; [typeclasses eauto | apply Hq, calm_cleanup |].
      intros _.
      apply respects_bind; [typeclasses eauto | apply Hq, calm_set_current_time |].
      intros _. apply IH. exact Hth. }
  assert (Hloop : forall fuel fr options a g,
            (fr = true -> fr0 = true) ->
            thresholds options = th ->
            respects R (simulate_loop fuel execution_strat fr options a g)).
  { induction fuel as [|fuel IH]; intros fr options a g Hfr Hth.
    - simpl. apply respects_lift; typeclasses eauto.
    - rewrite simulate_loop_step.
      apply respects_bind; [typeclasses eauto | apply Hq, calm_all_assigned |].
      intros [|].
      + apply respects_bind; [typeclasses eauto | apply Hq, calm_trace_assignments |].
        intros _. apply respects_ret; typeclasses eauto.
      + apply respects_bind; [typeclasses eauto | |].
        * rewrite Hth. apply Hguide. exact Hfr.
        * intros ag. apply Hafter; [|exact Hth].
          intros o a' g' Ho. apply IH; [discriminate | exact Ho]. }
  intros fuel. split.
  - intros fr options a g Hfr Hth. apply Hloop; assumption.
  - intros options ag Hth. apply Hafter; [|exact Hth].
    intros o a' g' Ho. apply Hloop; [discriminate | exact Ho].
Qed.

(** ** Reaching a state *)

Lemma establishes_bind (P Mid Q : Simulator F -> Prop) {A B : Type}
    (m : M F A) (k : A -> M F B) :
  establishes P Mid m ->
  (forall s, Mid s -> Q s) ->
  (forall a, establishes Mid Q (k a)) ->
  establishes P Q (bind m k).
Proof.
  intros Hm Hmid Hk s Hs. unfold bind.
  specialize (Hm s Hs). destruct (m s) as [[a|e|] s']; simpl in *.
  - apply Hk, Hm.
  - apply Hmid, Hm.
  - apply Hmid, Hm.
Qed.

Lemma establishes_respects (R : relation (Simulator F)) (P : Simulator F -> Prop)
    {A : Type} (m : M F A) :
  (forall s s', R s s' -> P s -> P s') ->
  respects R m -> establishes P P m.
Proof. intros HR Hm s Hs. exact (HR _ _ (Hm s) Hs). Qed.

Ltac unfold_guide :=
  unfold get_guide;
  repeat match goal with
         | |- context [if String.eqb ?x ?y then _ else _] =>
             destruct (String.eqb x y)
         end;
  unfold option_item, bump_ar_counter, read_ar_counter, store_ar_counter,
    set_ar_counter, _srea_algorithm, _drea_algorithm, _drea_si_algorithm,
    _drea_alp_algorithm, _drea_ar_algorithm, _drea_ar_tail, _arsi_algorithm,
    _srea_wrapper, srea_call, self_stn, log_event, incr_num_reschedules,
    incr_num_sent_schedules, bind, ret, raise.

Ltac unfold_algorithms :=
  unfold option_item, bump_ar_counter, read_ar_counter, store_ar_counter,
    set_ar_counter, _srea_algorithm, _drea_algorithm, _drea_si_algorithm,
    _drea_alp_algorithm, _drea_ar_algorithm, _drea_ar_tail, _arsi_algorithm,
    _srea_wrapper, srea_call, self_stn, log_event, incr_num_reschedules,
    incr_num_sent_schedules, bind, ret, raise.

Ltac guide_cases tac :=
  repeat (simpl; rewrite ?ar_bound_lift; unfold lift; tac;
          match goal with
          | |- context [match ?x with _ => _ end] =>
              match x with
              | context [match _ with _ => _ end] => fail 1
              | _ => destruct x
              end
          end);
  simpl; rewrite ?ar_bound_lift; unfold lift; tac; simpl.

Lemma get_guide_srea a g (o : Options F) :
  get_guide "srea" a g o = _srea_algorithm a g (first_run o).
Proof. reflexivity. Qed.

Lemma get_guide_drea a g (o : Options F) :
  get_guide "drea" a g o
  = _drea_algorithm a g (first_run o) (executed_contingent o).
Proof. reflexivity. Qed.

Lemma get_guide_drea_alp a g (o : Options F) :
  get_guide "drea-alp" a g o
  = bind (option_item (opt_alp_threshold (thresholds o)))
      (fun alp => _drea_alp_algorithm a g (first_run o) (executed_contingent o) alp).
Proof. reflexivity. Qed.

Lemma get_guide_drea_ar a g (o : Options F) :
  get_guide "drea-ar" a g o
  = bind (bump_ar_counter (executed_contingent o))
      (fun _ =>
         bind (option_item (opt_ar_threshold (thresholds o)))
           (fun ar =>
              bind read_ar_counter
                (fun c =>
                   bind (_drea_ar_algorithm a g (first_run o)
                           (executed_contingent o) ar c)
                     (fun ans =>
                        bind (store_ar_counter (snd ans))
                          (fun _ => ret (fst ans)))))).
Proof. reflexivity. Qed.

Lemma get_guide_arsi a g (o : Options F) :
  get_guide "arsi" a g o
  = bind (bump_ar_counter (executed_contingent o))
      (fun _ =>
         bind read_ar_counter
           (fun c =>
              bind (option_item (opt_ar_threshold (thresholds o)))
                (fun ar =>
                   bind (option_item (opt_si_threshold (thresholds o)))
                     (fun si =>
                        bind (_arsi_algorithm a g (first_run o)
                                (executed_contingent o) c ar si)
                          (fun ans =>
                             bind (store_ar_counter (snd ans))
                               (fun _ => ret (fst ans))))))).
Proof. reflexivity. Qed.

(** [get_guide] writes the counters, the log and the counter of contingent
    events, and nothing else. *)
Lemma get_guide_frame execution_strat a g o (s : Simulator F) :
  stn (snd (get_guide execution_strat a g o s)) = stn s
  /\ assignment_stn (snd (get_guide execution_strat a g o s)) = assignment_stn s
  /\ _current_time (snd (get_guide execution_strat a g o s)) = _current_time s
  /\ _rand_state (snd (get_guide execution_strat a g o s)) = _rand_state s
  /\ _rand_seed (snd (get_guide execution_strat a g o s)) = _rand_seed s.
Proof.
  destruct s as [st ? ? ? ? ? ? arc ?]. destruct o as [fr ec [si ar alp]].
  unfold_guide; guide_cases idtac; repeat split.
Qed.

(** ** The record of assignments *)

Lemma run_respects (R : relation (Simulator F)) `{!PreOrder R}
    (execution_strat : string) :
  (forall s s', calm s s' -> R s s') ->
  (forall s, R s (snd (resample_stored_stn s))) ->
  (forall a g o, respects R (get_guide execution_strat a g o)) ->
  forall fuel starting_stn sim_options s,
    R (setup starting_stn s)
      (snd (simulate fuel starting_stn execution_strat sim_options s)).
Proof.
  intros Hcalm Hres Hguide fuel starting_stn sim_options s.
  rewrite simulate_unfold.
  apply (respects_bind R); [exact Hres|].
  intros _.
  apply (proj1 (simulate_loop_respects_options R execution_strat sim_options true
                  Hcalm (fun fr a g ec _ => Hguide a g _) fuel));
    [intros _; reflexivity | reflexivity].
Qed.

(** X1. The record of assignments is never pruned: however long a run is
    followed and however it ends, [get_assigned_times] returns, and the
    keys of the dictionary it returns are the vertex ids of the starting
    STN, in their order. *)
Theorem assigned_times_keys fuel (starting_stn : STN F) (execution_strat : string)
    (sim_options : SimOptions F) (s : Simulator F) :
  exists times,
    get_assigned_times
      (snd (simulate fuel starting_stn execution_strat sim_options s)) = Ret times
    /\ map fst times = map fst (verts starting_stn).
Proof.
  pose proof (run_respects same_record_keys execution_strat) as H.
  specialize (H (fun a b Hab => proj2 (proj2 Hab))).
  assert (Hres : forall x : Simulator F,
             same_record_keys x (snd (resample_stored_stn x))).
  { intros x. unfold same_record_keys, record_keys, resample_stored_stn.
    destruct (stn x) as [w|]; [|reflexivity].
    destruct (resample_edges (contingent_edges w) (_rand_state x)); reflexivity. }
  assert (Hguide : forall a g o,
             respects same_record_keys (get_guide execution_strat a g o)).
  { intros a g o x. unfold same_record_keys, record_keys.
    destruct (get_guide_frame execution_strat a g o x) as (_ & E & _).
    rewrite E. reflexivity. }
  specialize (H Hres Hguide fuel starting_stn sim_options s).
  unfold same_record_keys, record_keys in H. simpl in H.
  unfold get_assigned_times.
  destruct (assignment_stn
              (snd (simulate fuel starting_stn execution_strat sim_options s)))
    as [a|]; [|discriminate H].
  simpl in H. injection H as H.
  eexists. split; [reflexivity|].
  rewrite map_map. unfold copy in H. rewrite <- H.
  apply map_ext. intros [k x]. simpl. destruct (is_executed x); reflexivity.
Qed.

(** ** How often the strategies reschedule *)

Lemma resample_same_ledger (s : Simulator F) :
  same_ledger s (snd (resample_stored_stn s)).
Proof.
  destruct (resample_stored_stn_quiet_but_rng s) as (E1 & E2 & E3 & _).
  unfold same_ledger. tauto.
Qed.

Lemma calm_same_ledger (s s' : Simulator F) : calm s s' -> same_ledger s s'.
Proof. intros ((Q1 & Q2 & Q3 & _) & _). unfold same_ledger. tauto. Qed.

(** X2. Under [srea] the solver is called at most once in a run: however
    long the run is followed, either nothing was logged and both counters
    are zero, or the log is the one first-run reschedule (counted as a
    reschedule and as a sent schedule, then the call) and both counters are
    one. *)
Theorem srea_reschedules_at_most_once fuel (starting_stn : STN F)
    (sim_options : SimOptions F) (s : Simulator F) :
  let s' := snd (simulate fuel starting_stn "srea" sim_options s) in
  (run_log s' = [] /\ num_reschedules s' = 0%nat /\ num_sent_schedules s' = 0%nat)
  \/ (run_log s' = [EvSrea; EvSent; EvResched]
      /\ num_reschedules s' = 1%nat /\ num_sent_schedules s' = 1%nat).
Proof.
  intros s'. subst s'. rewrite simulate_unfold.
  set (P0 := fun x : Simulator F =>
               run_log x = [] /\ num_reschedules x = 0%nat
               /\ num_sent_schedules x = 0%nat).
  set (P1 := fun x : Simulator F =>
               run_log x = [EvSrea; EvSent; EvResched]
               /\ num_reschedules x = 1%nat /\ num_sent_schedules x = 1%nat).
  assert (Hkeep : forall (P : Simulator F -> Prop),
             (P = P0 \/ P = P1) ->
             forall x y, same_ledger x y -> P x -> P y).
  { intros P [-> | ->] x y (E1 & E2 & E3); unfold P0, P1;
      rewrite E1, E2, E3; tauto. }
  destruct (simulate_loop_respects_options same_ledger "srea" sim_options false
              calm_same_ledger) with (fuel := pred fuel) as [_ Hafter].
  { intros fr a g ec Hfr. destruct fr; [specialize (Hfr eq_refl); discriminate|].
    rewrite get_guide_srea. intros x. unfold same_ledger. simpl. tauto. }
  change ((fun x => P0 x \/ P1 x)
            (snd (bind resample_stored_stn
                    (fun _ => simulate_loop fuel "srea" true
                                {| first_run := true; executed_contingent := false;
                                   thresholds := sim_options |} f0 GSelf)
                    (setup starting_stn s)))).
  apply (establishes_bind P0 P0 (fun x => P0 x \/ P1 x)).
  - apply (establishes_respects same_ledger); [apply Hkeep; tauto|].
    exact resample_same_ledger.
  - intros x Hx. left. exact Hx.
  - intros _. destruct fuel as [|fuel].
    + intros x Hx. left. exact Hx.
    + rewrite simulate_loop_step.
      apply (establishes_bind P0 P0 (fun x => P0 x \/ P1 x)).
      * apply (establishes_respects same_ledger); [apply Hkeep; tauto|].
        intros x. apply calm_same_ledger, calm_all_assigned.
      * intros x Hx. left. exact Hx.
      * intros [|].
        -- intros x Hx. left.
           apply (establishes_respects same_ledger P0
                    (bind trace_assignments (fun _ => ret true)));
             [apply Hkeep; tauto | | exact Hx].
           apply respects_bind; [typeclasses eauto | |].
           ++ intros y. apply calm_same_ledger, calm_trace_assignments.
           ++ intros _. apply respects_ret; typeclasses eauto.
        -- apply (establishes_bind P0 P1 (fun x => P0 x \/ P1 x)).
           ++ rewrite get_guide_srea.
              intros x (E1 & E2 & E3). destruct x. simpl in *. subst.
              unfold_algorithms. unfold P1. guide_cases idtac; repeat split.
           ++ intros x Hx. right. exact Hx.
           ++ intros ag x Hx. right.
              apply (establishes_respects same_ledger P1
                       (after_guide fuel "srea" _ ag));
                [apply Hkeep; tauto | | exact Hx].
              apply Hafter. reflexivity.
  - unfold P0. simpl. tauto.
Qed.

(** X3. Under [srea] and under [drea] every reschedule is counted as sent:
    however long a run is followed, [num_sent_schedules] equals
    [num_reschedules], and both equal the number of calls of the solver,
    feasible or not. *)
Theorem srea_drea_send_every_reschedule fuel (starting_stn : STN F)
    (execution_strat : string) (sim_options : SimOptions F) (s : Simulator F) :
  execution_strat = "srea"%string \/ execution_strat = "drea"%string ->
  let s' := snd (simulate fuel starting_stn execution_strat sim_options s) in
  num_sent_schedules s' = num_reschedules s'
  /\ num_reschedules s' = srea_count (run_log s').
Proof.
  intros Hstrat s'. subst s'.
  apply (simulate_ledger_invariant
           (fun x => num_sent_schedules x = num_reschedules x
                     /\ num_reschedules x = srea_count (run_log x))).
  - intros x y E1 E2 E3 _. rewrite E1, E2, E3. tauto.
  - intros a g o x [H1 H2]. destruct x. simpl in *.
    destruct Hstrat as [-> | ->];
      [rewrite get_guide_srea | rewrite get_guide_drea];
      unfold_algorithms; guide_cases idtac; split; lia.
  - simpl. split; reflexivity.
Qed.

Lemma run_respects_options (R : relation (Simulator F)) `{!PreOrder R}
    (execution_strat : string) (sim_options : SimOptions F) :
  (forall s s', calm s s' -> R s s') ->
  (forall s, R s (snd (resample_stored_stn s))) ->
  (forall fr a g ec,
      respects R (get_guide execution_strat a g
                    {| first_run := fr; executed_contingent := ec;
                       thresholds := sim_options |})) ->
  forall fuel starting_stn s,
    R (setup starting_stn s)
      (snd (simulate fuel starting_stn execution_strat sim_options s)).
Proof.
  intros Hcalm Hres Hguide fuel starting_stn s.
  rewrite simulate_unfold.
  apply (respects_bind R); [exact Hres|].
  intros _.
  apply (proj1 (simulate_loop_respects_options R execution_strat sim_options true
                  Hcalm (fun fr a g ec _ => Hguide fr a g ec) fuel));
    [intros _; reflexivity | reflexivity].
Qed.

Lemma calm_same_sent (s s' : Simulator F) : calm s s' -> same_sent s s'.
Proof. intros ((_ & Q2 & _) & _). exact Q2. Qed.

Lemma resample_same_sent (s : Simulator F) :
  same_sent s (snd (resample_stored_stn s)).
Proof. exact (proj1 (proj2 (resample_stored_stn_quiet_but_rng s))). Qed.

(** X4. With a threshold that no float exceeds (such as infinity): under
    [drea-si] at most one schedule is counted as sent in a run (the one of
    the first run), and under [drea-alp] and [arsi] none is. *)
Theorem unreachable_threshold_sends_no_more (thr : F) :
  (forall x, fgt x thr = false) ->
  forall fuel (starting_stn : STN F) (sim_options : SimOptions F)
         (s : Simulator F),
    (opt_si_threshold sim_options = Some thr ->
       (num_sent_schedules
          (snd (simulate fuel starting_stn "drea-si" sim_options s)) <= 1)%nat)
    /\ (opt_alp_threshold sim_options = Some thr ->
          num_sent_schedules
            (snd (simulate fuel starting_stn "drea-alp" sim_options s)) = 0%nat)
    /\ (opt_si_threshold sim_options = Some thr ->
          num_sent_schedules
            (snd (simulate fuel starting_stn "arsi" sim_options s)) = 0%nat).
Proof.
  intros Hthr fuel starting_stn sim_options s.
  split; [|split].
  - intros Hsi. rewrite simulate_unfold.
    set (P0 := fun x : Simulator F => num_sent_schedules x = 0%nat).
    set (P1 := fun x : Simulator F => (num_sent_schedules x <= 1)%nat).
    assert (Hkeep0 : forall x y, same_sent x y -> P0 x -> P0 y).
    { intros x y E. unfold P0. rewrite E. tauto. }
    assert (Hkeep1 : forall x y, same_sent x y -> P1 x -> P1 y).
    { intros x y E. unfold P1. rewrite E. tauto. }
    destruct (simulate_loop_respects_options same_sent "drea-si" sim_options false
                calm_same_sent) with (fuel := pred fuel) as [_ Hafter].
    { intros fr a g ec Hfr. destruct fr; [specialize (Hfr eq_refl); discriminate|].
      rewrite get_guide_drea_si. simpl. rewrite Hsi.
      intros x. destruct x. unfold same_sent. unfold_algorithms.
      guide_cases ltac:(rewrite ?Hthr); reflexivity. }
    change (P1 (snd (bind resample_stored_stn
                       (fun _ => simulate_loop fuel "drea-si" true
                                   {| first_run := true; executed_contingent := false;
                                      thresholds := sim_options |} f0 GSelf)
                       (setup starting_stn s)))).
    apply (establishes_bind P0 P0 P1).
    + apply (establishes_respects same_sent); [exact Hkeep0|].
      exact resample_same_sent.
    + intros x Hx. unfold P0, P1 in *. lia.
    + intros _. destruct fuel as [|fuel].
      * intros x Hx. unfold P0, P1 in *. simpl. lia.
      * rewrite simulate_loop_step.
        apply (establishes_bind P0 P0 P1).
        -- apply (establishes_respects same_sent); [exact Hkeep0|].
           intros x. apply calm_same_sent, calm_all_assigned.
        -- intros x Hx. unfold P0, P1 in *. lia.
        -- intros [|].
           ++ intros x Hx.
              assert (Hx' : P0 (snd (bind trace_assignments (fun _ => ret true) x))).
              { apply (establishes_respects same_sent P0
                         (bind trace_assignments (fun _ => ret true)));
                  [exact Hkeep0 | | exact Hx].
                apply respects_bind; [typeclasses eauto | |].
                - intros y. apply calm_same_sent, calm_trace_assignments.
                - intros _. apply respects_ret; typeclasses eauto. }
              unfold P0, P1 in *. lia.
           ++ apply (establishes_bind P0 P1 P1).
              ** rewrite get_guide_drea_si. simpl. rewrite Hsi.
                 intros x Hx. destruct x. unfold P0, P1 in *. simpl in *. subst.
                 unfold_algorithms. guide_cases idtac; lia.
              ** intros x Hx. exact Hx.
              ** intros ag.
                 apply (establishes_respects same_sent P1
                          (after_guide fuel "drea-si" _ ag)); [exact Hkeep1|].
                 apply Hafter. reflexivity.
    + unfold P0. reflexivity.
  - intros Halp.
    pose proof (run_respects_options same_sent "drea-alp" sim_options
                  calm_same_sent resample_same_sent) as H.
    unfold same_sent in H at 2. rewrite H; [reflexivity|].
    intros fr a g ec. rewrite get_guide_drea_alp. simpl. rewrite Halp.
    intros x. destruct x. unfold same_sent. unfold_algorithms.
    guide_cases ltac:(rewrite ?Hthr); reflexivity.
  - intros Hsi.
    pose proof (run_respects_options same_sent "arsi" sim_options
                  calm_same_sent resample_same_sent) as H.
    unfold same_sent in H at 2. rewrite H; [reflexivity|].
    intros fr a g ec. rewrite get_guide_arsi. simpl. rewrite Hsi.
    intros x. destruct x. unfold same_sent. unfold_algorithms.
    guide_cases ltac:(rewrite ?Hthr); reflexivity.
Qed.

(** ** The answers of get_guide *)



(** X6. A threshold missing from the options is a [KeyError] of
    [get_guide], on every step.  Under [drea-si] and [drea-alp] nothing has
    happened by then; under [drea-ar] and [arsi] the counter of contingent
    events has already been advanced when the step follows a contingent
    event, and nothing else has happened. *)
Theorem missing_threshold_raises_KeyError (a : F) (g : guide_ref F)
    (o : Options F) (s : Simulator F) :
  (opt_si_threshold (thresholds o) = None ->
     get_guide "drea-si" a g o s = (Raise KeyError, s))
  /\ (opt_alp_threshold (thresholds o) = None ->
        get_guide "drea-alp" a g o s = (Raise KeyError, s))
  /\ (forall c, _ar_contingent_event_counter s = Some c ->
        opt_ar_threshold (thresholds o) = None ->
        get_guide "drea-ar" a g o s
        = (Raise KeyError,
           if executed_contingent o then set_ar_counter (Some (c + 1)%nat) s else s))
  /\ (forall c, _ar_contingent_event_counter s = Some c ->
        opt_ar_threshold (thresholds o) = None
        \/ opt_si_threshold (thresholds o) = None ->
        get_guide "arsi" a g o s
        = (Raise KeyError,
           if executed_contingent o then set_ar_counter (Some (c + 1)%nat) s else s)).
Proof.
  destruct o as [fr ec [si ar alp]]. simpl.
  split; [|split; [|split]].
  - intros ->. reflexivity.
  - intros ->. reflexivity.
  - intros c Hc ->. rewrite get_guide_drea_ar. simpl.
    unfold bind at 1. unfold bump_ar_counter. rewrite Hc.
    destruct ec; reflexivity.
  - intros c Hc Hmiss. rewrite get_guide_arsi. simpl.
    unfold bind at 1. unfold bump_ar_counter. rewrite Hc.
    destruct ec; simpl; unfold bind at 1; unfold read_ar_counter; simpl;
      rewrite ?Hc; simpl; destruct ar, si; destruct Hmiss as [Hm|Hm];
        try discriminate Hm; reflexivity.
Qed.

(** X7. Under [drea-ar] and [arsi], with the counter of contingent events
    in place at [c]: after [get_guide], whatever its outcome, either a
    schedule was counted as sent and the counter is back at zero, or none
    was and the counter is [c], advanced by one when the step follows a
    contingent event. *)
Theorem ar_counter_reset_iff_sent (execution_strat : string) (a : F)
    (g : guide_ref F) (o : Options F) (s : Simulator F) (c : nat) :
  execution_strat = "drea-ar"%string \/ execution_strat = "arsi"%string ->
  _ar_contingent_event_counter s = Some c ->
  let s' := snd (get_guide execution_strat a g o s) in
  (num_sent_schedules s' = S (num_sent_schedules s)
   /\ _ar_contingent_event_counter s' = Some 0%nat)
  \/ (num_sent_schedules s' = num_sent_schedules s
      /\ _ar_contingent_event_counter s'
         = Some (if executed_contingent o then (c + 1)%nat else c)).
Proof.
  intros Hstrat Hc s'. subst s'.
  destruct o as [fr ec [si ar alp]].
  destruct s as [st ? ? ? ? ? ? arc ?]. simpl in Hc. subst arc.
  destruct Hstrat as [-> | ->];
    [rewrite get_guide_drea_ar | rewrite get_guide_arsi];
    unfold_algorithms; guide_cases idtac;
    first [left; split; reflexivity | right; split; reflexivity].
Qed.

(** ** What the outcome of a run tells *)

Lemma ends_bind {A B : Type} (Q : outcome B -> Simulator F -> Prop)
    (m : M F A) (k : A -> M F B) :
  (forall e s, Q (Raise e) s) ->
  (forall s, Q Fuel s) ->
  (forall a, ends Q (k a)) ->
  ends Q (bind m k).
Proof.
  intros Hraise Hfuel Hk s. unfold bind.
  destruct (m s) as [[a|e|] s1]; simpl.
  - apply Hk.
  - apply Hraise.
  - apply Hfuel.
Qed.

Lemma bind_ret_eq {A B : Type} (m : M F A) (k : A -> M F B) s a s1 :
  m s = (Ret a, s1) -> bind m k s = k a s1.
Proof. intros E. unfold bind. rewrite E. reflexivity. Qed.

Lemma bind_raise_eq {A B : Type} (m : M F A) (k : A -> M F B) s e s1 :
  m s = (Raise e, s1) -> bind m k s = (Raise e, s1).
Proof. intros E. unfold bind. rewrite E. reflexivity. Qed.

Lemma bind_fuel_eq {A B : Type} (m : M F A) (k : A -> M F B) s s1 :
  m s = (Fuel, s1) -> bind m k s = (Fuel, s1).
Proof. intros E. unfold bind. rewrite E. reflexivity. Qed.

Lemma trace_assignments_state (s : Simulator F) :
  exists r, trace_assignments s = (r, s).
Proof.
  unfold trace_assignments. destruct (get_assigned_times s); eexists; reflexivity.
Qed.

Lemma self_stn_none (s : Simulator F) :
  stn s = None -> self_stn s = (Raise AttributeError, s).
Proof. intros E. unfold self_stn. rewrite E. reflexivity. Qed.

Lemma self_stn_some (s : Simulator F) (w : STN F) :
  stn s = Some w -> self_stn s = (Ret w, s).
Proof. intros E. unfold self_stn. rewrite E. reflexivity. Qed.

Lemma all_assigned_none (s : Simulator F) :
  stn s = None -> all_assigned s = (Raise AttributeError, s).
Proof.
  intros E. unfold all_assigned. apply bind_raise_eq, self_stn_none, E.
Qed.

Lemma ends_after_trace (Q : outcome bool -> Simulator F -> Prop) (b : bool) :
  (forall e s, Q (Raise e) s) ->
  (forall s, Q Fuel s) ->
  forall s, Q (Ret b) s ->
    Q (fst (bind trace_assignments (fun _ => ret b) s))
      (snd (bind trace_assignments (fun _ => ret b) s)).
Proof.
  intros Hraise Hfuel s Hs.
  destruct (trace_assignments_state s) as [[u|e|] E].
  - rewrite (bind_ret_eq _ _ _ _ _ E). exact Hs.
  - rewrite (bind_raise_eq _ _ _ _ _ E). apply Hraise.
  - rewrite (bind_fuel_eq _ _ _ _ E). apply Hfuel.
Qed.

(** A relation between outcome and final state that exceptions and the
    exhaustion of the budget satisfy, that [True] satisfies in a state with
    every timepoint executed, and that [False] satisfies in a state whose
    working STN [floyd_warshall] finds inconsistent, holds of every run. *)
Lemma simulate_ends (Q : outcome bool -> Simulator F -> Prop)
    (execution_strat : string) :
  (forall e s, Q (Raise e) s) ->
  (forall s, Q Fuel s) ->
  (forall s, all_done s -> Q (Ret true) s) ->
  (forall s w, stn s = Some w -> fst (floyd_warshall w) = false -> Q (Ret false) s) ->
  forall fuel starting_stn sim_options,
    ends Q (simulate fuel starting_stn execution_strat sim_options).
Proof.
  intros Hraise Hfuel Htrue Hfalse.
  assert (Hloop : forall fuel fr options a g,
            ends Q (simulate_loop fuel execution_strat fr options a g)).
  { induction fuel as [|fuel IH]; intros fr options a g.
    - intros s. simpl. apply Hfuel.
    - rewrite simulate_loop_step. intros s.
      destruct (stn s) as [w|] eqn:Ew;
        [|rewrite (bind_raise_eq _ _ _ _ _ (all_assigned_none s Ew)); apply Hraise].
      rewrite (bind_ret_eq _ _ _ _ _ (all_assigned_eq s w Ew)).
      destruct (forallb is_executed (get_all_verts w)) eqn:Eall; cbv beta iota.
      + refine (ends_after_trace Q true Hraise Hfuel s _).
        apply Htrue. exists w. split; assumption.
      + revert s Ew.
        assert (Hrest : ends Q
                  (bind (get_guide execution_strat a g
                           {| first_run := fr;
                              executed_contingent := executed_contingent options;
                              thresholds := thresholds options |})
                        (after_guide fuel execution_strat
                           {| first_run := fr;
                              executed_contingent := executed_contingent options;
                              thresholds := thresholds options |})));
          [|intros s _; apply Hrest].
        apply ends_bind; [exact Hraise | exact Hfuel |].
        intros ag. unfold after_guide.
        apply ends_bind; [exact Hraise | exact Hfuel |]. intros dispatch.
        apply ends_bind; [exact Hraise | exact Hfuel |]. intros selection.
        apply ends_bind; [exact Hraise | exact Hfuel |]. intros guide'.
        apply ends_bind; [exact Hraise | exact Hfuel |]. intros _.
        apply ends_bind; [exact Hraise | exact Hfuel |]. intros _.
        intros s.
        destruct (stn s) as [w'|] eqn:Ew';
          [|rewrite (bind_raise_eq _ _ _ _ _ (self_stn_none s Ew')); apply Hraise].
        rewrite (bind_ret_eq _ _ _ _ _ (self_stn_some s w' Ew')).
        cbv beta zeta. unfold propagate_constraints, copy.
        destruct (fst (floyd_warshall w')) eqn:Efw; simpl negb; cbv beta iota.
        * revert s Ew'.
          match goal with
          | |- forall s, _ -> Q (fst (?m s)) _ =>
              assert (Hgo : ends Q m); [|intros s _; apply Hgo]
          end.
          apply ends_bind; [exact Hraise | exact Hfuel |]. intros guide''.
          apply ends_bind; [exact Hraise | exact Hfuel |]. intros _.
          apply ends_bind; [exact Hraise | exact Hfuel |]. intros _.
          apply IH.
        * refine (ends_after_trace Q false Hraise Hfuel s _).
          apply (Hfalse s w'); assumption. }
  intros fuel starting_stn sim_options s. rewrite simulate_unfold.
  apply ends_bind; [exact Hraise | exact Hfuel |].
  intros _. apply Hloop.
Qed.

(** X8. What the boolean of [simulate] tells.  When a run returns [True],
    every timepoint of the working STN it leaves is executed.  When it
    returns [False], the working STN it leaves (with the last assignment
    written and not propagated) is one that [floyd_warshall] finds
    inconsistent: the run fails for no other reason. *)
Theorem simulate_outcome_meaning fuel (starting_stn : STN F)
    (execution_strat : string) (sim_options : SimOptions F) (s : Simulator F) :
  let r := simulate fuel starting_stn execution_strat sim_options s in
  (fst r = Ret true -> all_done (snd r))
  /\ (fst r = Ret false ->
        exists w, stn (snd r) = Some w /\ fst (floyd_warshall w) = false).
Proof.
  intros r. subst r.
  apply (simulate_ends
           (fun o x => (o = Ret true -> all_done x)
                       /\ (o = Ret false ->
                             exists w, stn x = Some w
                                       /\ fst (floyd_warshall w) = false))).
  - intros e x. split; discriminate.
  - intros x. split; discriminate.
  - intros x Hx. split; [intros _; exact Hx | discriminate].
  - intros x w Hw Hfw. split; [discriminate|].
    intros _. exists w. split; assumption.
Qed.

(** ** Assignments, one after another *)

Lemma update_edge_forced_record (s : STN F) (i j : Z) (w : F) :
  update_edge s i j w true true
  = {| verts := verts s;
       edges := <[(i, j) := w]> (edges s);
       contingent_edges := contingent_edges s;
       received_timepoints := received_timepoints s |}.
Proof.
  unfold update_edge. destruct (edges s !! (i, j)); reflexivity.
Qed.

Lemma assign_timepoint_normal_form (s : STN F) (v : Z) (t : F) :
  assign_timepoint s (Some v) t
  = match get_vertex s v with
    | Some _ =>
        (Ret tt,
         {| verts := flagged (verts s) v;
            edges := pinned_edges (edges s) v t;
            contingent_edges := contingent_edges s;
            received_timepoints := received_timepoints s |})
    | None =>
        (Raise AttributeError,
         {| verts := verts s;
            edges := pinned_edges (edges s) v t;
            contingent_edges := contingent_edges s;
            received_timepoints := received_timepoints s |})
    end.
Proof.
  unfold assign_timepoint, pinned_edges.
  destruct (Z.eqb v Z_NODE_ID); cbn [negb].
  - destruct (get_vertex s v); [reflexivity|]. destruct s; reflexivity.
  - rewrite !update_edge_forced_record. unfold get_vertex. cbn [verts].
    destruct (lookup_vert (verts s) v); reflexivity.
Qed.


Lemma get_vertex_flagged (l : list (Z * Vertex)) (v u : Z) :
  lookup_vert (flagged l v) u
  = if Z.eqb u v then execute <$> lookup_vert l u else lookup_vert l u.
Proof. apply lookup_vert_execute. Qed.

Lemma flagged_idempotent (l : list (Z * Vertex)) (v : Z) :
  flagged (flagged l v) v = flagged l v.
Proof.
  unfold flagged. rewrite map_map. apply map_ext. intros [k x]. simpl.
  destruct (Z.eqb k v) eqn:E; simpl; rewrite E; reflexivity.
Qed.

Lemma flagged_commute (l : list (Z * Vertex)) (u v : Z) :
  flagged (flagged l v) u = flagged (flagged l u) v.
Proof.
  unfold flagged. rewrite !map_map. apply map_ext. intros [k x]. simpl.
  destruct (Z.eqb k v) eqn:Ev; destruct (Z.eqb k u) eqn:Eu; simpl;
    rewrite ?Ev, ?Eu; reflexivity.
Qed.

Lemma pinned_edges_idempotent (e : gmap (Z * Z) F) (v : Z) (t : F) :
  pinned_edges (pinned_edges e v t) v t = pinned_edges e v t.
Proof.
  unfold pinned_edges. destruct (Z.eqb v Z_NODE_ID) eqn:E; [reflexivity|].
  apply map_eq. intros k.
  rewrite !lookup_insert. repeat case_decide; congruence.
Qed.

Lemma pinned_edges_commute (e : gmap (Z * Z) F) (u v : Z) (t t' : F) :
  u <> v ->
  pinned_edges (pinned_edges e v t) u t' = pinned_edges (pinned_edges e u t') v t.
Proof.
  intros Hne. unfold pinned_edges.
  destruct (Z.eqb v Z_NODE_ID) eqn:Ev; destruct (Z.eqb u Z_NODE_ID) eqn:Eu;
    try reflexivity.
  apply Z.eqb_neq in Ev, Eu.
  apply map_eq. intros k.
  rewrite !lookup_insert. repeat case_decide; try congruence;
    repeat match goal with
           | H : (_, _) = (_, _) |- _ => inversion H; clear H; subst
           end; congruence.
Qed.

(** X10. Assigning a timepoint twice at the same time is assigning it
    once: the second call has the outcome of the first and leaves the STN
    the first left.  (Under [early] the guide is the working STN itself,
    and the driver assigns to it twice in every iteration.) *)
Theorem assign_timepoint_idempotent (s : STN F) (v : option Z) (t : F) :
  assign_timepoint (snd (assign_timepoint s v t)) v t = assign_timepoint s v t.
Proof.
  destruct v as [v|]; [|reflexivity].
  rewrite (assign_timepoint_normal_form s).
  destruct (get_vertex s v) as [x|] eqn:Hx; cbn [snd];
    rewrite assign_timepoint_normal_form; unfold get_vertex in *;
    cbn [verts edges contingent_edges received_timepoints].
  - rewrite get_vertex_flagged, Z.eqb_refl, Hx. cbn [fmap option_fmap option_map].
    rewrite flagged_idempotent, pinned_edges_idempotent. reflexivity.
  - rewrite Hx, pinned_edges_idempotent. reflexivity.
Qed.

(** X11. Assignments to two different timepoints commute: in either order
    each call has the outcome it has on its own, and the STN left is the
    same. *)
Theorem assign_timepoint_commute (s : STN F) (u v : Z) (t t' : F) :
  u <> v ->
  fst (assign_timepoint (snd (assign_timepoint s (Some v) t)) (Some u) t')
  = fst (assign_timepoint s (Some u) t')
  /\ snd (assign_timepoint (snd (assign_timepoint s (Some v) t)) (Some u) t')
     = snd (assign_timepoint (snd (assign_timepoint s (Some u) t')) (Some v) t).
Proof.
  intros Hne.
  assert (Huv : Z.eqb u v = false) by (apply Z.eqb_neq; exact Hne).
  assert (Hvu : Z.eqb v u = false) by (apply Z.eqb_neq; congruence).
  rewrite (assign_timepoint_normal_form s v), (assign_timepoint_normal_form s u).
  destruct (get_vertex s v) as [x|] eqn:Hx;
    destruct (get_vertex s u) as [y|] eqn:Hy; cbn [snd];
    rewrite !assign_timepoint_normal_form; unfold get_vertex in *;
    cbn [verts edges contingent_edges received_timepoints];
    rewrite ?get_vertex_flagged, ?Huv, ?Hvu, ?Hx, ?Hy; cbn [fst snd];
    (split; [reflexivity|]);
    rewrite ?(pinned_edges_commute (edges s) u v t t' Hne);
    rewrite ?(flagged_commute (verts s) u v); reflexivity.
Qed.

(** ** The selection *)

Lemma all_executed_true (ps : list (option Vertex)) :
  all_executed ps = Ret true ->
  Forall (fun p => exists x, p = Some x /\ is_executed x = true) ps.
Proof.
  induction ps as [|[x|] ps IH]; simpl; intros H.
  - constructor.
  - destruct (all_executed ps) as [b| |]; simpl in H; try discriminate H.
    injection H as H. apply andb_true_iff in H. destruct H as [Hx Hb]. subst b.
    constructor; [exists x; split; [reflexivity | exact Hx] | apply IH; reflexivity].
  - discriminate H.
Qed.

Lemma candidate_some (working : option (STN F)) (dispatch : STN F) (i : Z)
    (time : F) (c : bool) :
  candidate working dispatch i = Ret (Some (time, c)) ->
  all_executed (predecessors dispatch i) = Ret true
  /\ c = match get_incoming_contingent dispatch i with
         | Some _ => true
         | None => false
         end.
Proof.
  unfold candidate. fold (predecessors dispatch i).
  destruct (all_executed (predecessors dispatch i)) as [[|]| |]; simpl;
    try discriminate.
  intros H. split; [reflexivity|].
  destruct (get_incoming_contingent dispatch i) as [ce|].
  - destruct (get_assigned_time dispatch (e_i ce)); injection H as _ H; congruence.
  - destruct (get_incoming dispatch i) as [|e es]; [injection H as _ H; congruence|].
    destruct (requirement_times working (e :: es)) as [[|x xs]| |]; simpl in H;
      try discriminate H.
    injection H as _ H. congruence.
Qed.

Lemma select_loop_spec (working : option (STN F)) (dispatch : STN F) :
  forall items v0 t0 c0 rv rt rc,
    select_loop working dispatch items v0 t0 c0 = Ret (rv, rt, rc) ->
    (rv = v0 /\ rt = t0 /\ rc = c0)
    \/ (exists i vert,
          rv = Some i /\ In (i, vert) items /\ is_executed vert = false
          /\ candidate working dispatch i = Ret (Some (rt, rc))).
Proof.
  induction items as [|[i vert] items IH]; intros v0 t0 c0 rv rt rc H; simpl in H.
  - injection H as -> -> ->. left. tauto.
  - assert (Hlater : forall v1 t1 c1,
               select_loop working dispatch items v1 t1 c1 = Ret (rv, rt, rc) ->
               (rv = v1 /\ rt = t1 /\ rc = c1)
               \/ (exists i' vert',
                     rv = Some i' /\ In (i', vert') ((i, vert) :: items)
                     /\ is_executed vert' = false
                     /\ candidate working dispatch i' = Ret (Some (rt, rc)))).
    { intros v1 t1 c1 H1. destruct (IH _ _ _ _ _ _ H1) as [Hl|(i' & vert' & E & Hin & Hr)].
      - left. exact Hl.
      - right. exists i', vert'. split; [exact E|]. split; [right; exact Hin | exact Hr]. }
    destruct (is_executed vert) eqn:Eex; [apply Hlater, H|].
    destruct (candidate working dispatch i) as [[[time c]|]| |] eqn:Ec; simpl in H;
      try discriminate H.
    + destruct (fgt t0 time).
      * destruct (Hlater _ _ _ H) as [(-> & -> & ->)|Hr]; [|right; exact Hr].
        right. exists i, vert. split; [reflexivity|].
        split; [left; reflexivity|]. split; [exact Eex | exact Ec].
      * apply Hlater, H.
    + apply Hlater, H.
Qed.

(** X12. A timepoint that [select_next_timepoint] selects is a vertex of
    the dispatch STN that is not executed, every source of a requirement
    edge into it is a vertex of the dispatch STN and is executed, and the
    flag returned with it says whether a contingent edge comes into it. *)
Theorem selected_timepoint_is_enabled (working : option (STN F))
    (dispatch : STN F) (current_time : F) (i : Z) (time : F) (c : bool) :
  select_next_timepoint working dispatch current_time = Ret (Some i, time, c) ->
  (exists vert, In (i, vert) (verts dispatch) /\ is_executed vert = false)
  /\ Forall (fun p => exists x, p = Some x /\ is_executed x = true)
            (predecessors dispatch i)
  /\ c = match get_incoming_contingent dispatch i with
         | Some _ => true
         | None => false
         end.
Proof.
  intros H. unfold select_next_timepoint in H.
  destruct (select_loop_spec _ _ _ _ _ _ _ _ _ H)
    as [(E & _)|(i' & vert & E & Hin & Hex & Hc)]; [discriminate E|].
  injection E as <-.
  destruct (candidate_some _ _ _ _ _ Hc) as [Hall Hflag].
  split; [exists vert; split; assumption|].
  split; [apply all_executed_true, Hall | exact Hflag].
Qed.

Lemma select_loop_all_executed (working : option (STN F)) (dispatch : STN F) :
  forall items v0 t0 c0,
    Forall (fun kv => is_executed (snd kv) = true) items ->
    select_loop working dispatch items v0 t0 c0 = Ret (v0, t0, c0).
Proof.
  induction items as [|[i vert] items IH]; intros v0 t0 c0 Hall; simpl.
  - reflexivity.
  - inversion Hall as [|kv l Hkv Hl]; subst. simpl in Hkv. rewrite Hkv.
    apply IH, Hl.
Qed.

(** X13. The null selection.  When [select_next_timepoint] returns the
    null vertex, it returns it with the time [inf] and the flag [False];
    and it returns just that, without consulting any edge, when every
    vertex of the dispatch STN is executed (in particular when there is
    none). *)
Theorem null_selection_shape (working : option (STN F)) (dispatch : STN F)
    (current_time : F) :
  (forall time c,
      select_next_timepoint working dispatch current_time = Ret (None, time, c) ->
      time = finf /\ c = false)
  /\ (Forall (fun kv => is_executed (snd kv) = true) (verts dispatch) ->
        select_next_timepoint working dispatch current_time
        = Ret (None, finf, false)).
Proof.
  split.
  - intros time c H. unfold select_next_timepoint in H.
    destruct (select_loop_spec _ _ _ _ _ _ _ _ _ H)
      as [(_ & -> & ->)|(i' & vert & E & _)]; [tauto | discriminate E].
  - intros Hall. apply select_loop_all_executed, Hall.
Qed.

(** ** The cleanup *)

Lemma remove_old_loop_keeps (Hrm : forall (s : STN F) (v u : Z),
                               u <> v ->
                               get_vertex (remove_vertex s v) u = get_vertex s u)
    (u : Z) :
  forall keys (s : STN F),
    (u = 0 \/ exists x, get_vertex s u = Some x /\ is_executed x = false) ->
    get_vertex (snd (remove_old_loop s keys)) u = get_vertex s u.
Proof.
  induction keys as [|k keys IH]; intros s Hu; simpl; [reflexivity|].
  destruct (Z.eqb k 0) eqn:Ek; [apply IH, Hu|].
  destruct (outgoing_executed s k); [|apply IH, Hu].
  destruct (get_vertex s k) as [vert|] eqn:Ev; [|reflexivity].
  destruct (is_executed vert) eqn:Ex; [|apply IH, Hu].
  assert (Hne : u <> k).
  { destruct Hu as [->|(x & Hx & Hxe)].
    - intros <-. discriminate Ek.
    - intros ->. rewrite Ev in Hx. injection Hx as <-. congruence. }
  rewrite IH.
  - apply Hrm, Hne.
  - rewrite (Hrm s k u Hne). exact Hu.
Qed.

(** X14. With an STN whose [remove_vertex] leaves the other vertices as
    they are, [remove_old_timepoints] removes neither Z nor a timepoint
    that is not executed: what [get_vertex] finds for them is the same
    after as before. *)
Theorem cleanup_keeps_Z_and_unexecuted :
  (forall (s : STN F) (v u : Z),
      u <> v -> get_vertex (remove_vertex s v) u = get_vertex s u) ->
  forall (s : STN F) (u : Z),
    (u = 0 \/ exists x, get_vertex s u = Some x /\ is_executed x = false) ->
    get_vertex (snd (remove_old_timepoints s)) u = get_vertex s u.
Proof.
  intros Hrm s u Hu. unfold remove_old_timepoints.
  apply remove_old_loop_keeps; assumption.
Qed.

Lemma remove_old_loop_nothing (s : STN F) :
  forall keys,
    Forall (fun v => removable s v = false) keys ->
    remove_old_loop s keys = (Ret tt, s).
Proof.
  induction keys as [|k keys IH]; intros Hk; simpl; [reflexivity|].
  inversion Hk as [|k' l Hk1 Hk2]; subst. unfold removable in Hk1.
  destruct (Z.eqb k 0); [apply IH, Hk2|]. simpl in Hk1.
  destruct (outgoing_executed s k); [|apply IH, Hk2]. simpl in Hk1.
  destruct (get_vertex s k) as [vert|]; [|discriminate Hk1].
  rewrite Hk1. apply IH, Hk2.
Qed.

(** X15. When no vertex of the STN is removable (none other than Z is
    executed with all its outgoing edges leading to executed vertices),
    [remove_old_timepoints] returns without an exception and leaves the
    STN as it was. *)
Theorem cleanup_without_removable (s : STN F) :
  Forall (fun v => removable s v = false) (map fst (verts s)) ->
  remove_old_timepoints s = (Ret tt, s).
Proof. intros H. apply remove_old_loop_nothing, H. Qed.

(** ** The resampling and the count of contingent events *)

Lemma resample_edges_keys (es : list ((Z * Z) * Edge F)) (rs : RandomState) :
  map fst (fst (resample_edges es rs)) = map fst es.
Proof.
  revert rs. induction es as [|[k e] es IH]; intros rs; simpl; [reflexivity|].
  destruct (resample e rs) as [e' rs'].
  specialize (IH rs'). destruct (resample_edges es rs') as [es'' rs''].
  simpl in *. rewrite IH. reflexivity.
Qed.

(** X16. [resample_stored_stn] raises [AttributeError] when there is no
    working STN.  Otherwise it returns, and it has changed the contingent
    edges of the working STN, keeping their keys and their order, and the
    random state, and nothing else: the vertices, the edge weights and the
    received timepoints of the working STN, the record of assignments (whose
    contingent edges are not resampled), the time and the counters are as
    they were. *)
Theorem resample_stored_stn_frame (s : Simulator F) :
  (stn s = None -> resample_stored_stn s = (Raise AttributeError, s))
  /\ (forall w, stn s = Some w ->
        let s' := snd (resample_stored_stn s) in
        fst (resample_stored_stn s) = Ret tt
        /\ (exists w', stn s' = Some w'
                       /\ map fst (contingent_edges w') = map fst (contingent_edges w)
                       /\ verts w' = verts w /\ edges w' = edges w
                       /\ received_timepoints w' = received_timepoints w)
        /\ assignment_stn s' = assignment_stn s
        /\ _current_time s' = _current_time s
        /\ num_reschedules s' = num_reschedules s
        /\ num_sent_schedules s' = num_sent_schedules s
        /\ _ar_contingent_event_counter s' = _ar_contingent_event_counter s
        /\ _rand_state s'
           = snd (resample_edges (contingent_edges w) (_rand_state s))).
Proof.
  split.
  - intros E. unfold resample_stored_stn. rewrite E. reflexivity.
  - intros w E s'. subst s'. unfold resample_stored_stn. rewrite E.
    pose proof (resample_edges_keys (contingent_edges w) (_rand_state s)) as Hk.
    destruct (resample_edges (contingent_edges w) (_rand_state s)) as [es rs].
    simpl in *. split; [reflexivity|]. split.
    + eexists. split; [reflexivity|]. simpl. repeat split. exact Hk.
    + repeat split.
Qed.

Lemma remaining_contingent_loop_raises (g : STN F) (l : list Z) (n : nat) :
  Exists (fun i => get_vertex g i = None) l ->
  remaining_contingent_loop g l n = Raise AttributeError.
Proof.
  intros Hl. revert n. induction Hl as [i l Hi|i l Hl IH]; intros n; simpl.
  - rewrite Hi. reflexivity.
  - destruct (get_vertex g i) as [x|]; [|reflexivity].
    destruct (negb (is_executed x)); apply IH.
Qed.

(** X17. [remaining_contingent_count] returns the number of received
    timepoints that are not executed, which is at most the number of
    received timepoints and zero when all of them are executed, provided
    each received timepoint is a vertex of the STN; when one is not, it
    raises [AttributeError]. *)
Theorem remaining_contingent_count_cases (g : STN F) :
  (Forall (fun i => is_Some (get_vertex g i)) (received_timepoints g) ->
     remaining_contingent_count g = Ret (unexecuted_received g)
     /\ (unexecuted_received g <= length (received_timepoints g))%nat
     /\ (Forall (fun i => exists x, get_vertex g i = Some x
                                    /\ is_executed x = true)
                (received_timepoints g) ->
           unexecuted_received g = 0%nat))
  /\ (Exists (fun i => get_vertex g i = None) (received_timepoints g) ->
        remaining_contingent_count g = Raise AttributeError).
Proof.
  split.
  - intros Hall. split; [apply remaining_contingent_count_eq, Hall|].
    unfold unexecuted_received. split.
    + apply List.filter_length_le.
    + intros Hex. induction Hex as [|i l (x & Hx & Hxe) Hl IH]; simpl.
      * reflexivity.
      * rewrite Hx, Hxe. simpl. apply IH. inversion Hall; assumption.
  - intros Hex. apply remaining_contingent_loop_raises, Hex.
Qed.

(** ** The extremes of the allowable-risk search *)


(** ** Runs with nothing to dispatch, and strategies without thresholds *)

(** X19. When every timepoint of the starting STN is executed already (in
    particular when it has none), [simulate] returns [True] under every
    strategy string, known or not, without a call of [get_guide]: the state
    is the one the setup and the resampling left, with no call of the
    solver and both counters at zero. *)
Theorem nothing_to_dispatch_returns_true fuel (starting_stn : STN F)
    (execution_strat : string) (sim_options : SimOptions F) (s : Simulator F) :
  forallb is_executed (get_all_verts starting_stn) = true ->
  simulate (S fuel) starting_stn execution_strat sim_options s
  = (Ret true, snd (resample_stored_stn (setup starting_stn s)))
  /\ run_log (snd (simulate (S fuel) starting_stn execution_strat sim_options s)) = []
  /\ num_reschedules
       (snd (simulate (S fuel) starting_stn execution_strat sim_options s)) = 0%nat
  /\ num_sent_schedules
       (snd (simulate (S fuel) starting_stn execution_strat sim_options s)) = 0%nat.
Proof.
  intros Hall.
  assert (E : simulate (S fuel) starting_stn execution_strat sim_options s
              = (Ret true, snd (resample_stored_stn (setup starting_stn s)))).
  { rewrite simulate_unfold.
    destruct (resample_stored_stn_setup starting_stn s) as (es & s1 & Er & Hw & Ha).
    rewrite (bind_ret_eq _ _ _ _ _ Er). rewrite Er. cbn [snd].
    rewrite simulate_loop_step.
    rewrite (bind_ret_eq _ _ _ _ _ (all_assigned_eq _ _ Hw)).
    unfold get_all_verts in *. cbn [verts]. rewrite Hall.
    unfold bind, trace_assignments, get_assigned_times, ret.
    rewrite Ha. reflexivity. }
  split; [exact E|]. rewrite E. cbn [snd].
  destruct (resample_stored_stn_quiet_but_rng (setup starting_stn s))
    as (E1 & E2 & E3 & _).
  rewrite E1, E2, E3. simpl. tauto.
Qed.

Lemma bind_ext {A B : Type} (m : M F A) (k k' : A -> M F B) (s : Simulator F) :
  (forall a s1, k a s1 = k' a s1) -> bind m k s = bind m k' s.
Proof.
  intros H. unfold bind. destruct (m s) as [[a|e|] s1]; [apply H | reflexivity..].
Qed.

Lemma get_guide_ignores_thresholds (execution_strat : string) a g fr ec
    (th th' : SimOptions F) :
  execution_strat = "early"%string \/ execution_strat = "srea"%string
  \/ execution_strat = "drea"%string ->
  get_guide execution_strat a g
    {| first_run := fr; executed_contingent := ec; thresholds := th |}
  = get_guide execution_strat a g
      {| first_run := fr; executed_contingent := ec; thresholds := th' |}.
Proof. intros [-> | [-> | ->]]; reflexivity. Qed.

Lemma simulate_loop_ignores_thresholds (execution_strat : string) :
  execution_strat = "early"%string \/ execution_strat = "srea"%string
  \/ execution_strat = "drea"%string ->
  forall fuel fr (o o' : Options F) a g s,
    executed_contingent o = executed_contingent o' ->
    simulate_loop fuel execution_strat fr o a g s
    = simulate_loop fuel execution_strat fr o' a g s.
Proof.
  intros Hstrat. induction fuel as [|fuel IH]; intros fr o o' a g s Hec.
  - reflexivity.
  - rewrite !simulate_loop_step. apply bind_ext. intros [|] s1; [reflexivity|].
    rewrite Hec.
    rewrite (get_guide_ignores_thresholds execution_strat a g fr
               (executed_contingent o') (thresholds o) (thresholds o') Hstrat).
    apply bind_ext. intros ag s2. unfold after_guide.
    apply bind_ext. intros dispatch s3.
    apply bind_ext. intros selection s4.
    apply bind_ext. intros guide' s5.
    apply bind_ext. intros u1 s6.
    apply bind_ext. intros u2 s7.
    apply bind_ext. intros w s8.
    destruct (negb (fst (propagate_constraints (copy w)))); [reflexivity|].
    apply bind_ext. intros guide'' s9.
    apply bind_ext. intros u3 s10.
    apply bind_ext. intros u4 s11.
    apply IH. reflexivity.
Qed.

(** X20. [early], [srea] and [drea] read no threshold: under them a run
    has the same outcome and leaves the same state whatever the options,
    present or missing. *)
Theorem thresholds_ignored fuel (starting_stn : STN F) (execution_strat : string)
    (o1 o2 : SimOptions F) (s : Simulator F) :
  execution_strat = "early"%string \/ execution_strat = "srea"%string
  \/ execution_strat = "drea"%string ->
  simulate fuel starting_stn execution_strat o1 s
  = simulate fuel starting_stn execution_strat o2 s.
Proof.
  intros Hstrat. rewrite !simulate_unfold. apply bind_ext. intros u s1.
  apply simulate_loop_ignores_thresholds; [exact Hstrat | reflexivity].
Qed.

End Further.

(** * Further runs on concrete networks *)

Lemma xgt_PInf (x : xfloat) : xgt x PInf = false.
Proof. destruct x; reflexivity. Qed.


Lemma lookup_vert_filter_ne (l : list (Z * Vertex)) (v u : Z) :
  u <> v ->
  lookup_vert (filter (fun kv : Z * Vertex => fst kv ≠ v) l) u = lookup_vert l u.
Proof.
  intros Hne. induction l as [|[k x] l IH]; [reflexivity|].
  rewrite filter_cons. cbn [fst].
  destruct (decide (k ≠ v)) as [Hk|Hk].
  - cbn [lookup_vert]. rewrite IH. reflexivity.
  - apply dec_stable in Hk. subst k. rewrite IH. cbn [lookup_vert].
    destruct (Z.eqb_spec v u) as [E|_]; [congruence | reflexivity].
Qed.

Lemma ex_remove_vertex_get_vertex (s : STN xfloat) (v u : Z) :
  u <> v -> get_vertex (ex_remove_vertex s v) u = get_vertex s u.
Proof. intros Hne. apply lookup_vert_filter_ne, Hne. Qed.

Lemma srea_drea_send_every_reschedule_witness :
  num_sent_schedules (snd (run half_risk 10 stn_cont "drea" no_options))
  = num_reschedules (snd (run half_risk 10 stn_cont "drea" no_options))
  /\ num_reschedules (snd (run half_risk 10 stn_cont "drea" no_options))
     = srea_count (run_log (snd (run half_risk 10 stn_cont "drea" no_options))).
Proof.
  exact (srea_drea_send_every_reschedule (F:=xfloat)
           (Collaborators0 := ex_collaborators half_risk)
           10 stn_cont "drea" no_options (fresh half_risk) (or_intror eq_refl)).
Defined.

Lemma unreachable_threshold_sends_no_more_witness :
  num_sent_schedules
    (snd (run half_risk 10 stn_cont "drea-alp" (all_options PInf PInf PInf))) = 0%nat.
Proof.
  pose proof (unreachable_threshold_sends_no_more (F:=xfloat)
                (Collaborators0 := ex_collaborators half_risk)
                PInf xgt_PInf 10 stn_cont (all_options PInf PInf PInf)
                (fresh half_risk)) as (_ & H & _).
  apply H. reflexivity.
Defined.


Lemma missing_threshold_raises_KeyError_witness :
  get_guide "drea-si" (Fin 0) GSelf (after_contingent no_options)
    (ready half_risk stn_cont)
  = (Raise KeyError, ready half_risk stn_cont)
  /\ get_guide "drea-ar" (Fin 0) GSelf (after_contingent no_options)
       (ready half_risk stn_cont)
     = (Raise KeyError, set_ar_counter (Some 1%nat) (ready half_risk stn_cont)).
Proof.
  pose proof (missing_threshold_raises_KeyError (F:=xfloat)
                (Collaborators0 := ex_collaborators half_risk)
                (Fin 0) GSelf (after_contingent no_options)
                (ready half_risk stn_cont)) as (H1 & _ & H3 & _).
  split.
  - apply H1. reflexivity.
  - apply (H3 0%nat); reflexivity.
Defined.

Lemma ar_counter_reset_iff_sent_witness :
  (num_sent_schedules
     (snd (get_guide "drea-ar" (Fin 0) GSelf
             (after_contingent (all_options (Fin 0) (Fin 0) (Fin 0)))
             (ready half_risk stn_cont)))
   = S (num_sent_schedules (ready half_risk stn_cont))
   /\ _ar_contingent_event_counter
        (snd (get_guide "drea-ar" (Fin 0) GSelf
                (after_contingent (all_options (Fin 0) (Fin 0) (Fin 0)))
                (ready half_risk stn_cont)))
      = Some 0%nat)
  \/ (num_sent_schedules
        (snd (get_guide "drea-ar" (Fin 0) GSelf
                (after_contingent (all_options (Fin 0) (Fin 0) (Fin 0)))
                (ready half_risk stn_cont)))
      = num_sent_schedules (ready half_risk stn_cont)
      /\ _ar_contingent_event_counter
           (snd (get_guide "drea-ar" (Fin 0) GSelf
                   (after_contingent (all_options (Fin 0) (Fin 0) (Fin 0)))
                   (ready half_risk stn_cont)))
         = Some 1%nat).
Proof.
  exact (ar_counter_reset_iff_sent (F:=xfloat)
           (Collaborators0 := ex_collaborators half_risk)
           "drea-ar" (Fin 0) GSelf
           (after_contingent (all_options (Fin 0) (Fin 0) (Fin 0)))
           (ready half_risk stn_cont) 0%nat (or_introl eq_refl) eq_refl).
Defined.

Lemma simulate_outcome_meaning_witness :
  all_done (snd (run half_risk 10 stn_cont "drea" no_options))
  /\ exists w, stn (snd (run half_risk 10 stn_inconsistent "early" no_options)) = Some w
               /\ fst (ex_floyd_warshall w) = false.
Proof.
  split.
  - apply (simulate_outcome_meaning (F:=xfloat)
             (Collaborators0 := ex_collaborators half_risk)
             10 stn_cont "drea" no_options (fresh half_risk)).
    vm_compute. reflexivity.
  - apply (simulate_outcome_meaning (F:=xfloat)
             (Collaborators0 := ex_collaborators half_risk)
             10 stn_inconsistent "early" no_options (fresh half_risk)).
    vm_compute. reflexivity.
Defined.


Lemma assign_timepoint_commute_witness :
  snd (assign_timepoint (snd (assign_timepoint stn_mutual (Some 2) (Fin 4)))
         (Some 1) (Fin 3))
  = snd (assign_timepoint (snd (assign_timepoint stn_mutual (Some 1) (Fin 3)))
           (Some 2) (Fin 4)).
Proof.
  apply (assign_timepoint_commute (F:=xfloat) stn_mutual 1 2 (Fin 4) (Fin 3)).
  discriminate.
Defined.

Lemma selected_timepoint_is_enabled_witness :
  (exists vert, In (0, vert) (verts stn_cont) /\ is_executed vert = false)
  /\ Forall (fun p => exists x, p = Some x /\ is_executed x = true)
            (predecessors (Collaborators0 := ex_collaborators half_risk) stn_cont 0)
  /\ false = match ex_get_incoming_contingent stn_cont 0 with
             | Some _ => true
             | None => false
             end.
Proof.
  apply (selected_timepoint_is_enabled (F:=xfloat)
           (Collaborators0 := ex_collaborators half_risk)
           (Some stn_cont) stn_cont (Fin 0) 0 (Fin 0) false).
  vm_compute. reflexivity.
Defined.

Lemma null_selection_shape_witness :
  select_next_timepoint (Collaborators0 := ex_collaborators half_risk)
    (Some stn_trivial_done) stn_trivial_done (Fin 5)
  = Ret (None, PInf, false).
Proof.
  pose proof (null_selection_shape (F:=xfloat)
                (Collaborators0 := ex_collaborators half_risk)
                (Some stn_trivial_done) stn_trivial_done (Fin 5)) as (_ & H).
  apply H. repeat constructor.
Defined.

Lemma cleanup_keeps_Z_and_unexecuted_witness :
  get_vertex
    (snd (remove_old_timepoints (Collaborators0 := ex_collaborators half_risk)
            stn_trivial_done)) 0
  = get_vertex stn_trivial_done 0
  /\ get_vertex
       (snd (remove_old_timepoints (Collaborators0 := ex_collaborators half_risk)
               stn_trivial_done)) 1
     = None.
Proof.
  split.
  - apply (cleanup_keeps_Z_and_unexecuted (F:=xfloat)
             (Collaborators0 := ex_collaborators half_risk)
             ex_remove_vertex_get_vertex stn_trivial_done 0).
    left. reflexivity.
  - vm_compute. reflexivity.
Defined.

Lemma cleanup_without_removable_witness :
  remove_old_timepoints (Collaborators0 := ex_collaborators half_risk) stn_cont
  = (Ret tt, stn_cont).
Proof.
  apply (cleanup_without_removable (F:=xfloat)
           (Collaborators0 := ex_collaborators half_risk) stn_cont).
  repeat constructor.
Defined.

Lemma resample_stored_stn_frame_witness :
  resample_stored_stn (fresh half_risk) = (Raise AttributeError, fresh half_risk)
  /\ fst (resample_stored_stn (ready half_risk stn_cont)) = Ret tt
  /\ _rand_state (snd (resample_stored_stn (ready half_risk stn_cont))) = 8%nat.
Proof.
  split.
  - apply (resample_stored_stn_frame (F:=xfloat)
             (Collaborators0 := ex_collaborators half_risk) (fresh half_risk)).
    reflexivity.
  - pose proof (resample_stored_stn_frame (F:=xfloat)
                  (Collaborators0 := ex_collaborators half_risk)
                  (ready half_risk stn_cont)) as (_ & H).
    specialize (H stn_cont eq_refl). cbv zeta in H.
    destruct H as (H1 & _ & _ & _ & _ & _ & _ & H8).
    split; [exact H1|]. rewrite H8. reflexivity.
Defined.

Lemma remaining_contingent_count_cases_witness :
  remaining_contingent_count stn_cont = Ret 1%nat
  /\ remaining_contingent_count
       ({| verts := [(0, unexecuted)]; edges := ∅; contingent_edges := [];
           received_timepoints := [2] |} : STN xfloat)
     = Raise AttributeError.
Proof.
  split.
  - pose proof (remaining_contingent_count_cases (F:=xfloat) stn_cont) as (H & _).
    destruct H as (H & _).
    + repeat constructor. eexists. reflexivity.
    + exact H.
  - apply (remaining_contingent_count_cases (F:=xfloat)).
    apply Exists_cons_hd. reflexivity.
Defined.


Lemma nothing_to_dispatch_returns_true_witness :
  fst (run half_risk 1 stn_empty "foo" no_options) = Ret true
  /\ fst (run half_risk 1 stn_trivial_done "drea-si" no_options) = Ret true.
Proof.
  split.
  - destruct (nothing_to_dispatch_returns_true (F:=xfloat)
                (Collaborators0 := ex_collaborators half_risk)
                0 stn_empty "foo" no_options (fresh half_risk) eq_refl) as (E & _).
    unfold run. rewrite E. reflexivity.
  - destruct (nothing_to_dispatch_returns_true (F:=xfloat)
                (Collaborators0 := ex_collaborators half_risk)
                0 stn_trivial_done "drea-si" no_options (fresh half_risk) eq_refl)
      as (E & _).
    unfold run. rewrite E. reflexivity.
Defined.

Lemma thresholds_ignored_witness :
  run half_risk 10 stn_cont "drea" no_options
  = run half_risk 10 stn_cont "drea" (all_options (Fin 0) (Fin 0) (Fin 0)).
Proof.
  apply (thresholds_ignored (F:=xfloat)
           (Collaborators0 := ex_collaborators half_risk)
           10 stn_cont "drea" no_options (all_options (Fin 0) (Fin 0) (Fin 0))
           (fresh half_risk)).
  right. right. reflexivity.
Defined.
